(** * app.py: the orchestration layer of the downloader, embedded in Rocq

    The Python module [app.py] validates a link, fetches metadata through
    a cached function, derives the selectable resolutions, drives the
    download engine and keeps one temporary directory per session.  Each
    of these parts is embedded below as an executable definition that
    follows the source line by line; the engine (yt_dlp), the widget
    toolkit (streamlit) and the file system are inputs of the model. *)

From Stdlib Require Import Ascii QArith Qcanon.
From stdpp Require Import base decidable option numbers list sorting
  strings pretty countable gmap.

Local Open Scope Z_scope.

(** ** Python strings

    A Python [str] is a sequence of Unicode code points.  The embedding
    keeps that: a character is its code point, a string a list of them.
    [str] builds one from an ASCII literal. *)

Abbreviation char := N.
Abbreviation pystr := (list char).

Fixpoint str (s : string) : pystr :=
  match s with
  | EmptyString => []
  | String a s' => N_of_ascii a :: str s'
  end.
Arguments str s%_string.

(** Truthiness of a string: only the empty string is false. *)
Definition str_truthy (s : pystr) : bool :=
  match s with [] => false | _ :: _ => true end.

(** [str(n)] for an [int], as used by an f-string [f"{n}"]: decimal
    digits with a leading minus sign for negative numbers. *)
Definition str_of_int (z : Z) : pystr := str (pretty z).

(** ** get_available_resolutions *)

(** The value stored under ["vcodec"] in a format dictionary: the key may
    be absent, hold [None], or hold a codec name. *)
Inductive codec_field :=
  | CodecMissing
  | CodecNull
  | CodecName (name : pystr).

(** A format dictionary, restricted to the two keys the resolver reads.
    [height = None] stands for a dictionary in which the key is absent or
    holds [None]: [fmt.get("height")] returns [None] in both cases. *)
Record fmt_dict := Fmt {
  vcodec : codec_field;
  height : option Z
}.

(** [fmt.get("vcodec", "none") != "none"] *)
Definition has_video_stream (fmt : fmt_dict) : bool :=
  match vcodec fmt with
  | CodecMissing => false                      (* default "none" *)
  | CodecNull => true                          (* None != "none" *)
  | CodecName name => negb (bool_decide (name = str "none"))
  end.

(** Truthiness of [fmt.get("height")]: [None] and [0] are false. *)
Definition height_truthy (fmt : fmt_dict) : bool :=
  match height fmt with
  | None => false
  | Some h => negb (h =? 0)
  end.

(** A descriptor contributes its height when it passes the test of the loop
    below. *)
Definition contributes (fmt : fmt_dict) (h : Z) : Prop :=
  has_video_stream fmt = true ∧ height fmt = Some h ∧ h ≠ 0.

(** One iteration of the [for fmt in formats] loop. *)
Definition add_height (heights : gset Z) (fmt : fmt_dict) : gset Z :=
  if has_video_stream fmt && height_truthy fmt then
    match height fmt with
    | Some h => heights ∪ {[ h ]}
    | None => heights
    end
  else heights.

Definition collect_heights (formats : list fmt_dict) : gset Z :=
  foldl add_height ∅ formats.

(** The order [sorted(..., reverse=True)] sorts by. *)
Definition descending : relation Z := λ x y, y ≤ x.

#[global] Instance descending_dec x y : Decision (descending x y) :=
  decide (y ≤ x).

(** [sorted(heights, reverse=True)]: the elements of the set in
    descending order. *)
Definition sorted_reverse (heights : gset Z) : list Z :=
  merge_sort descending (elements heights).

(** [f"{h}p"] *)
Definition label (h : Z) : pystr := str_of_int h ++ str "p".

Definition get_available_resolutions (formats : list fmt_dict) : list pystr :=
  label <$> sorted_reverse (collect_heights formats).

(** The heights behind the labels, in output order. *)
Definition resolution_heights (formats : list fmt_dict) : list Z :=
  sorted_reverse (collect_heights formats).

Module ResolverExamples.
Definition video (h : option Z) : fmt_dict := Fmt (CodecName (str "avc1.64001F")) h.
Definition audio_only : fmt_dict := Fmt (CodecName (str "none")) None.

(** Heights 720, 480, 720, None, 360 and one audio-only descriptor. *)
Definition mixed : list fmt_dict :=
  [video (Some 720); video (Some 480); video (Some 720); video None;
   video (Some 360); audio_only].

(** A video descriptor that reports height 0. *)
Definition zero_height : list fmt_dict := [video (Some 0)].

(** A storyboard: no video codec, but a height. *)
Definition storyboard : fmt_dict := Fmt (CodecName (str "none")) (Some 90).
(** A dictionary without the ["vcodec"] key. *)
Definition no_codec_key : fmt_dict := Fmt CodecMissing (Some 1080).
End ResolverExamples.

(** ** Runtime parameters

    Four things the module takes from its runtime rather than from its own
    text: the Unicode database behind [\w], the rendering of a float by the
    format [.0%], the platform's [os.path.join], and the module constant
    [FFMPEG_DIR] computed once at import by [_find_ffmpeg()]. *)

Section App.

Variable isalnum_unicode : char → bool.
Variable format_percent : Qc → pystr.
Variable os_path_join : pystr → pystr → pystr.
Variable FFMPEG_DIR : option pystr.

(** ** is_valid_youtube_url *)

(** [str.isspace()]: the code points [str.strip()] removes. *)
Definition isspace (c : char) : bool :=
  ((9 <=? c) && (c <=? 13) || (28 <=? c) && (c <=? 32)
   || (c =? 133) || (c =? 160) || (c =? 5760)
   || (8192 <=? c) && (c <=? 8202)
   || (c =? 8232) || (c =? 8233) || (c =? 8239) || (c =? 8287)
   || (c =? 12288))%N.

Fixpoint lstrip (s : pystr) : pystr :=
  match s with
  | [] => []
  | c :: s' => if isspace c then lstrip s' else s
  end.

Definition rstrip (s : pystr) : pystr := reverse (lstrip (reverse s)).

(** [s.strip()] *)
Definition strip (s : pystr) : pystr := rstrip (lstrip s).

Definition ascii_alnum (c : char) : bool :=
  ((48 <=? c) && (c <=? 57) || (65 <=? c) && (c <=? 90)
   || (97 <=? c) && (c <=? 122))%N.

(** [\w] of a [str] pattern: ASCII letters, digits and the underscore, and
    beyond ASCII whatever the Unicode database calls alphanumeric. *)
Definition word_char (c : char) : bool :=
  if (c <? 128)%N then ascii_alnum c || (c =? 95)%N else isalnum_unicode c.

(** The class [[\w\-]]. *)
Definition ident_char (c : char) : bool := word_char c || (c =? 45)%N.

(** A matcher takes the text still to be read and a continuation for what
    is left after it has matched; trying the alternatives in order and
    falling through to the next one is the engine's backtracking. *)
Definition matcher := pystr → (pystr → bool) → bool.

Fixpoint strip_prefix (p s : pystr) : option pystr :=
  match p, s with
  | [], _ => Some s
  | a :: p', b :: s' => if (a =? b)%N then strip_prefix p' s' else None
  | _ :: _, [] => None
  end.

Definition re_lit (p : pystr) : matcher :=
  λ s k, match strip_prefix p s with Some r => k r | None => false end.

Definition re_seq (m1 m2 : matcher) : matcher :=
  λ s k, m1 s (λ r, m2 r k).

Definition re_alt (m1 m2 : matcher) : matcher :=
  λ s k, m1 s k || m2 s k.

(** [(...)?], greedy: first with the group, then without. *)
Definition re_opt (m : matcher) : matcher :=
  λ s k, m s k || k s.

(** [[class]{n}] *)
Fixpoint re_class (P : char → bool) (n : nat) : matcher :=
  λ s k,
    match n with
    | O => k s
    | S n' =>
        match s with
        | c :: s' => P c && re_class P n' s' k
        | [] => false
        end
    end.

(** [m] accepts the language [L]: it succeeds on a text exactly when
    some prefix in [L] can be split off with the continuation accepting
    the remainder. *)
Definition denotes (m : matcher) (L : pystr → Prop) : Prop :=
  ∀ s k, m s k = true ↔ ∃ pre r, s = pre ++ r ∧ L pre ∧ k r = true.

(** The body of [_YT_REGEX] after the anchor [^]. *)
Definition _YT_REGEX : matcher :=
  re_seq (re_opt (re_seq (re_lit (str "http"))
                   (re_seq (re_opt (re_lit (str "s"))) (re_lit (str "://")))))
  (re_seq (re_opt (re_lit (str "www.")))
  (re_seq (re_alt (re_lit (str "youtube.com/watch?v="))
           (re_alt (re_lit (str "youtu.be/"))
                   (re_lit (str "youtube.com/shorts/"))))
          (re_class ident_char 11))).

(** [pattern.search(s)] for a pattern that starts with [^] (and is
    compiled without MULTILINE): the only candidate position is the start
    of [s], and nothing is asked of what follows the match. *)
Definition search_anchored (m : matcher) (s : pystr) : bool :=
  m s (λ _, true).

Definition is_valid_youtube_url (url : pystr) : bool :=
  search_anchored _YT_REGEX (strip url).

(** The link shape in the words of the specification: an optional scheme,
    an optional [www.], the host with a watch, short-link or shorts path,
    then an identifier of 11 letters, digits, hyphens or underscores. *)
Definition canonical_link_shape (s : pystr) : Prop :=
  ∃ scheme www path ident rest,
    s = scheme ++ www ++ path ++ ident ++ rest
    ∧ scheme ∈ [[]; str "http://"; str "https://"]
    ∧ www ∈ [[]; str "www."]
    ∧ path ∈ [str "youtube.com/watch?v="; str "youtu.be/";
              str "youtube.com/shorts/"]
    ∧ length ident = 11%nat
    ∧ Forall (λ c, ident_char c = true) ident.

(** ** Widgets

    What the functions do to the page is kept as a log of calls. *)
Inductive ui_action :=
  | ProgressBar (value : Qc) (text : pystr)   (* progress_bar.progress *)
  | StatusText (text : pystr)                 (* status_text.text *)
  | StError (text : pystr).                   (* st.error *)

(** U+274C, U+2026 and U+2014, which the messages use. *)
Definition cross_mark : pystr := [10060%N].
Definition ellipsis : pystr := [8230%N].
Definition em_dash : pystr := [8212%N].

(** ** get_video_info *)

(** What [extract_info] hands back; an absent key is [None]. *)
Record raw_info := RawInfo {
  raw_title : option pystr;
  raw_thumbnail : option pystr;
  raw_formats : option (list fmt_dict);
  raw_duration : option Z;
  raw_uploader : option pystr;
  raw_view_count : option Z
}.

(** The dictionary [get_video_info] returns. *)
Record info := Info {
  title : pystr;
  thumbnail : pystr;
  formats : list fmt_dict;
  duration : Z;
  uploader : pystr;
  view_count : Z
}.

(** The options of the metadata call. *)
Record info_opts := InfoOpts {
  io_quiet : bool;
  io_no_warnings : bool;
  io_skip_download : bool;
  io_ffmpeg_location : option pystr
}.

(** How a call into the engine can end other than by returning: with
    [yt_dlp.utils.DownloadError] or with some other [Exception]; either
    carries the text [str(exc)]. *)
Inductive raised :=
  | DownloadError (exc : pystr)
  | OtherException (exc : pystr).

(** [str(exc)] *)
Definition exc_text (r : raised) : pystr :=
  match r with
  | DownloadError exc => exc
  | OtherException exc => exc
  end.

(** [ydl_opts["ffmpeg_location"] = FFMPEG_DIR], under [if FFMPEG_DIR]. *)
Definition ffmpeg_location : option pystr :=
  match FFMPEG_DIR with
  | Some d => if str_truthy d then Some d else None
  | None => None
  end.

(** The function as written, without its decorator. *)
Definition get_video_info_body
    (extract_info : info_opts → pystr → raw_info + raised) (url : pystr)
    : option info * list ui_action :=
  let ydl_opts := InfoOpts true true true ffmpeg_location in
  match extract_info ydl_opts url with
  | inl i =>
      (Some {| title := default (str "Unknown Title") (raw_title i);
               thumbnail := default [] (raw_thumbnail i);
               formats := default [] (raw_formats i);
               duration := default 0 (raw_duration i);
               uploader := default (str "Unknown") (raw_uploader i);
               view_count := default 0 (raw_view_count i) |}, [])
  | inr (DownloadError exc) =>
      (None, [StError (cross_mark ++ str " Could not fetch video info: " ++ exc)])
  | inr (OtherException exc) =>
      (None, [StError (cross_mark ++ str " An unexpected error occurred: " ++ exc)])
  end.

(** [@st.cache_data(show_spinner=False, ttl=600)].  The decorator keeps,
    per argument, the value the function returned together with the
    elements it drew and the time of the call.  A later call with the same
    argument, made while the entry is younger than [ttl] seconds, gets the
    stored value and the stored elements again and the function body does
    not run.  Whatever the body returns is stored; only a call that ends
    by raising stores nothing, and the body above never raises. *)
Record cache_entry := CacheEntry {
  stored_at : Z;
  stored_value : option info;
  stored_elements : list ui_action
}.

Definition ttl : Z := 600.

Definition entry_fresh (now : Z) (e : cache_entry) : bool :=
  now <? stored_at e + ttl.

(** The outcome of one call of the decorated function. *)
Record info_call := InfoCall {
  returned : option info;
  drawn : list ui_action;
  cache_after : gmap pystr cache_entry;
  engine_calls : nat                  (* how often extract_info ran *)
}.

Definition get_video_info
    (extract_info : info_opts → pystr → raw_info + raised)
    (cache : gmap pystr cache_entry) (now : Z) (url : pystr) : info_call :=
  let miss :=
    let '(value, elements) := get_video_info_body extract_info url in
    InfoCall value elements (<[url := CacheEntry now value elements]> cache) 1 in
  match cache !! url with
  | Some e =>
      if entry_fresh now e
      then InfoCall (stored_value e) (stored_elements e) cache 0
      else miss
  | None => miss
  end.

(** ** download_content *)

(** The dictionary yt-dlp passes to a progress hook.  [None] in the two
    size fields stands for an absent key or a stored [None], which the
    [or] chain does not tell apart; [downloaded_bytes] is a number when
    present.  Sizes are integers or floats in Python; here they are exact
    rationals, so the quotient below is the exact one. *)
Record progress_event := ProgressEvent {
  status : pystr;
  total_bytes : option Qc;
  total_bytes_estimate : option Qc;
  downloaded_bytes : option Qc
}.

(** [x or y] for a number or [None] on the left. *)
Definition or_else (x : option Qc) (y : Qc) : Qc :=
  match x with
  | Some q => if decide (q = 0%Qc) then y else q
  | None => y
  end.

(** [min(x, 1.0)] *)
Definition min_one (x : Qc) : Qc :=
  if decide (1 < x)%Qc then 1%Qc else x.

(** [d.get("total_bytes") or d.get("total_bytes_estimate") or 0] *)
Definition total_of (d : progress_event) : Qc :=
  or_else (total_bytes d) (or_else (total_bytes_estimate d) 0%Qc).

(** [d.get("downloaded_bytes", 0)] *)
Definition downloaded_of (d : progress_event) : Qc :=
  default 0%Qc (downloaded_bytes d).

Definition _progress_hook (d : progress_event) : list ui_action :=
  if decide (status d = str "downloading") then
    let total := total_of d in
    let downloaded := downloaded_of d in
    if decide (0 < total)%Qc then
      let pct := min_one (downloaded / total)%Qc in
      [ProgressBar pct
         (str "Downloading" ++ ellipsis ++ str " " ++ format_percent pct)]
    else
      [StatusText (str "Downloading" ++ ellipsis ++ str " (size unknown)")]
  else if decide (status d = str "finished") then
    [ProgressBar 1%Qc
       (str "Download complete " ++ em_dash ++ str " processing" ++ ellipsis)]
  else [].

Record postprocessor := Postprocessor {
  key : pystr;
  preferredcodec : pystr;
  preferredquality : pystr
}.

(** The hooks a download can register; the module has one. *)
Inductive hook := progress_hook.

(** The options of the download call; [None] is an absent key. *)
Record download_opts := DownloadOpts {
  format : pystr;
  outtmpl : pystr;
  quiet : bool;
  no_warnings : bool;
  progress_hooks : list hook;
  postprocessors : option (list postprocessor);
  merge_output_format : option pystr;
  do_ffmpeg_location : option pystr
}.

(** [s.replace("p", "")]: every occurrence of the letter goes. *)
Definition replace_p (s : pystr) : pystr :=
  filter (λ c, c ≠ 112%N) s.

(** [resolution.replace("p", "") if resolution else "720"] *)
Definition height_of (resolution : option pystr) : pystr :=
  match resolution with
  | Some r => if str_truthy r then replace_p r else str "720"
  | None => str "720"
  end.

(** [f"bestvideo[height<={height}]+bestaudio/best[height<={height}]"] *)
Definition format_expression (height : pystr) : pystr :=
  str "bestvideo[height<=" ++ height
  ++ str "]+bestaudio/best[height<=" ++ height ++ str "]".

(** The numeric prefix of a label in the words of the specification: its
    leading decimal digits. *)
Definition is_digit (c : char) : bool := ((48 <=? c) && (c <=? 57))%N.

Fixpoint numeric_prefix (s : pystr) : pystr :=
  match s with
  | c :: s' => if is_digit c then c :: numeric_prefix s' else []
  | [] => []
  end.


Definition audio_opts (output_template : pystr) : download_opts :=
  {| format := str "bestaudio/best";
     outtmpl := output_template;
     quiet := true;
     no_warnings := true;
     progress_hooks := [progress_hook];
     postprocessors :=
       Some [Postprocessor (str "FFmpegExtractAudio") (str "mp3") (str "192")];
     merge_output_format := None;
     do_ffmpeg_location := ffmpeg_location |}.

Definition video_opts (output_template : pystr) (resolution : option pystr)
    : download_opts :=
  let height := height_of resolution in
  {| format := format_expression height;
     outtmpl := output_template;
     quiet := true;
     no_warnings := true;
     progress_hooks := [progress_hook];
     postprocessors := None;
     merge_output_format := Some (str "mp4");
     do_ffmpeg_location := ffmpeg_location |}.

(** One run of [ydl.download([url])]: the progress events the engine
    delivered to the hook, and how the call ended. *)
Record engine_run := EngineRun {
  events : list progress_event;
  ended : option raised               (* None: returned normally *)
}.

(** The engine and the directory listing as [download_content] sees them:
    [iterdir] is [list(Path(tmp_dir).iterdir())] taken after the engine
    has run, as path strings in the order the system lists them, or the
    text of the error it raises. *)
Record world := World {
  extract_info : info_opts → pystr → raw_info + raised;
  ydl_download : download_opts → list pystr → engine_run;
  iterdir : pystr → list pystr + pystr;
  isfile : pystr → bool
}.

(** The options [download_content] builds for a request. *)
Definition build_opts (fmt : pystr) (resolution : option pystr)
    (tmp_dir : pystr) : download_opts :=
  let output_template := os_path_join tmp_dir (str "%(title)s.%(ext)s") in
  if decide (fmt = str "audio")
  then audio_opts output_template
  else video_opts output_template resolution.

Definition download_content (W : world) (url fmt : pystr)
    (resolution : option pystr) (tmp_dir : pystr)
    : option pystr * list ui_action :=
  let ydl_opts := build_opts fmt resolution tmp_dir in
  let run := ydl_download W ydl_opts [url] in
  let shown := concat (_progress_hook <$> events run) in
  match ended run with
  | None =>
      match iterdir W tmp_dir with
      | inl (file :: _) => (Some file, shown)
      | inl [] =>
          (None, shown ++ [StError (cross_mark ++
             str " Download succeeded but no output file was found.")])
      | inr exc =>
          (None, shown ++ [StError (cross_mark ++
             str " Unexpected error during download: " ++ exc)])
      end
  | Some (DownloadError exc) =>
      (None, shown ++ [StError (cross_mark ++ str " Download failed: " ++ exc)])
  | Some (OtherException exc) =>
      (None, shown ++ [StError (cross_mark ++
         str " Unexpected error during download: " ++ exc)])
  end.

(** ** Session state and the script

    Streamlit runs the script from top to bottom on every interaction.
    What survives from one run to the next is [st.session_state], the
    process-wide cache of [get_video_info], and the file system. *)

Record session_state := Session {
  video_info : option info;
  downloaded_file : option pystr;
  download_ready : bool;
  tmp_dir : option pystr;
  last_url : pystr
}.

Record app_state := AppState {
  session : session_state;
  cache : gmap pystr cache_entry;
  temp_dirs : gset pystr      (* directories made by mkdtemp that exist *)
}.

(** The defaults of "Initialise session state". *)
Definition initial_state : app_state :=
  AppState (Session None None false None []) ∅ ∅.

Definition set_session (f : session_state → session_state) (a : app_state)
    : app_state :=
  AppState (f (session a)) (cache a) (temp_dirs a).

Definition set_video_info (v : option info) : app_state → app_state :=
  set_session (λ s, Session v (downloaded_file s) (download_ready s)
                      (tmp_dir s) (last_url s)).

Definition set_last_url (u : pystr) : app_state → app_state :=
  set_session (λ s, Session (video_info s) (downloaded_file s)
                      (download_ready s) (tmp_dir s) u).

Definition set_tmp_dir (d : option pystr) : app_state → app_state :=
  set_session (λ s, Session (video_info s) (downloaded_file s)
                      (download_ready s) d (last_url s)).

Definition set_downloaded (file : pystr) : app_state → app_state :=
  set_session (λ s, Session (video_info s) (Some file) true
                      (tmp_dir s) (last_url s)).

(** [shutil.rmtree(old_dir, ignore_errors=True)]: the tree goes, or the
    call fails and says nothing; [removed] tells which. *)
Definition rmtree (removed : bool) (d : pystr) (dirs : gset pystr)
    : gset pystr :=
  if removed then dirs ∖ {[ d ]} else dirs.

Definition _cleanup_temp (removed : bool) (a : app_state) : app_state :=
  let dirs :=
    match tmp_dir (session a) with
    | Some old_dir =>
        if str_truthy old_dir && bool_decide (old_dir ∈ temp_dirs a)
        then rmtree removed old_dir (temp_dirs a)
        else temp_dirs a
    | None => temp_dirs a
    end in
  AppState (Session (video_info (session a)) None false None
              (last_url (session a)))
           (cache a) dirs.

(** Every temporary directory that exists is the one the session holds. *)
Definition only_current (a : app_state) : Prop :=
  ∀ d, d ∈ temp_dirs a → tmp_dir (session a) = Some d ∧ str_truthy d = true.

(** What the session says agrees with itself and with the disk: the
    directory it names exists, a ready download has a file and a
    directory, and a file is only recorded together with the ready flag. *)
Definition session_consistent (a : app_state) : Prop :=
  (∀ d, tmp_dir (session a) = Some d → d ∈ temp_dirs a)
  ∧ (download_ready (session a) = true →
     ∃ file, downloaded_file (session a) = Some file
             ∧ str_truthy file = true ∧ is_Some (tmp_dir (session a)))
  ∧ (is_Some (downloaded_file (session a)) →
     download_ready (session a) = true).

(** The two options of the radio button, "Audio Only (MP3)" and
    "Video (MP4)"; the script tests them with ["Video" in format_choice]
    and ["Audio" in format_choice]. *)
Inductive format_choice := AudioOnly | Video.

(** What one run of the script reads from outside. *)
Record run_input := RunInput {
  in_url : pystr;                 (* st.text_input *)
  in_now : Z;                     (* the clock of the cache *)
  in_choice : format_choice;      (* st.radio *)
  in_picked : nat;                (* position chosen in st.selectbox *)
  in_button : bool;               (* st.button *)
  in_rmtree_on_change : bool;     (* rmtree outcome, URL change *)
  in_rmtree_on_download : bool;   (* rmtree outcome, download trigger *)
  in_mkdtemp : pystr;             (* tempfile.mkdtemp(prefix="ytdl_") *)
  in_world : world
}.

(** "Reset state when URL changes". *)
Definition on_url_change (i : run_input) (a : app_state) : app_state :=
  if decide (in_url i ≠ last_url (session a))
  then set_last_url (in_url i)
         (set_video_info None (_cleanup_temp (in_rmtree_on_change i) a))
  else a.

(** "Fetch & display video info": the state after the fetch, and the
    metadata when the script goes on to the format selection. *)
Definition fetch_info (i : run_input) (a : app_state)
    : app_state * option info :=
  if str_truthy (in_url i) then
    if is_valid_youtube_url (in_url i) then
      let call := get_video_info (extract_info (in_world i)) (cache a)
                    (in_now i) (in_url i) in
      let a' := AppState (session a) (cache_after call) (temp_dirs a) in
      match returned call with
      | Some info => (set_video_info (Some info) a', Some info)
      | None => (a', None)
      end
    else (a, None)
  else (a, None).

(** "Format selection". *)
Definition selected_resolution (i : run_input) (inf : info) : option pystr :=
  match in_choice i with
  | Video =>
      match get_available_resolutions (formats inf) with
      | [] => None
      | first :: others =>
          Some (default first ((first :: others) !! in_picked i))
      end
  | AudioOnly => None
  end.

(** The button handler up to the fresh directory. *)
Definition start_download (i : run_input) (a : app_state) : app_state :=
  let a' := _cleanup_temp (in_rmtree_on_download i) a in
  set_tmp_dir (Some (in_mkdtemp i))
    (AppState (session a') (cache a') (temp_dirs a' ∪ {[ in_mkdtemp i ]})).

(** The rest of the handler: the download and what the session keeps. *)
Definition finish_download (i : run_input) (inf : info) (a : app_state)
    : app_state :=
  let fmt := match in_choice i with
             | AudioOnly => str "audio"
             | Video => str "video"
             end in
  let '(file_path, _) :=
    download_content (in_world i) (in_url i) fmt (selected_resolution i inf)
      (in_mkdtemp i) in
  match file_path with
  | Some file =>
      if str_truthy file && isfile (in_world i) file
      then set_downloaded file a
      else a
  | None => a
  end.

Definition script_run (i : run_input) (a : app_state) : app_state :=
  match fetch_info i (on_url_change i a) with
  | (a', Some inf) =>
      if in_button i
      then finish_download i inf (start_download i a')
      else a'
  | (a', None) => a'
  end.

(** The states the page can be in.  [reliable] restricts the runs to
    those in which every [rmtree] removes its tree.  [mkdtemp] returns a
    non-empty name that is not in use. *)
Inductive reachable (reliable : bool) : app_state → Prop :=
  | reach_init : reachable reliable initial_state
  | reach_run i a :
      reachable reliable a →
      str_truthy (in_mkdtemp i) = true →
      in_mkdtemp i ∉ temp_dirs a →
      (reliable = true →
       in_rmtree_on_change i = true ∧ in_rmtree_on_download i = true) →
      reachable reliable (script_run i a).

End App.

(** ** Helpers of the page *)

(** [_fmt_duration]: [divmod] twice, and the hours only when there are
    any.  [Z.div_eucl] is [divmod] for a positive divisor. *)
Definition _fmt_duration (seconds : Z) : pystr :=
  if seconds <=? 0 then str "Unknown"
  else
    let '(m, s) := Z.div_eucl seconds 60 in
    let '(h, m) := Z.div_eucl m 60 in
    if negb (h =? 0)
    then str_of_int h ++ str "h " ++ str_of_int m ++ str "m "
         ++ str_of_int s ++ str "s"
    else str_of_int m ++ str "m " ++ str_of_int s ++ str "s".

(** ** _find_ffmpeg

    What the search reads from the machine: the answer of
    [shutil.which("ffmpeg")], the parent directory of a path as
    [str(Path(p).parent)] gives it, the two entries of
    [_FFMPEG_SEARCH_DIRS] that come out of [os.path.expanduser], the tests
    [os.path.isfile] and [os.path.isdir], and the triples [os.walk]
    yields. *)
Record machine := Machine {
  which_ffmpeg : option pystr;
  parent_of : pystr → pystr;
  home_ffmpeg_bin : pystr;
  home_downloads_ffmpeg_bin : pystr;
  path_isfile : pystr → bool;
  path_isdir : pystr → bool;
  os_walk : pystr → list (pystr * list pystr * list pystr)
}.

Section Ffmpeg.

Variable os_path_join : pystr → pystr → pystr.
Variable M : machine.

Definition _FFMPEG_SEARCH_DIRS : list pystr :=
  [str "C:\ffmpeg\bin";
   str "C:\Program Files\ffmpeg\bin";
   str "C:\Program Files (x86)\ffmpeg\bin";
   home_ffmpeg_bin M;
   home_downloads_ffmpeg_bin M].

(** Step 2: the first search directory that holds [ffmpeg.exe]. *)
Fixpoint first_with_exe (dirs : list pystr) : option pystr :=
  match dirs with
  | [] => None
  | search_dir :: rest =>
      if path_isfile M (os_path_join search_dir (str "ffmpeg.exe"))
      then Some search_dir
      else first_with_exe rest
  end.

(** Step 3: the first directory of the walk whose files include
    [ffmpeg.exe]. *)
Fixpoint first_root_with_exe
    (walk : list (pystr * list pystr * list pystr)) : option pystr :=
  match walk with
  | [] => None
  | (root, _, files) :: rest =>
      if bool_decide (str "ffmpeg.exe" ∈ files)
      then Some root
      else first_root_with_exe rest
  end.

(** Steps 2 and 3, taken when the PATH has no ffmpeg. *)
Definition search_install_dirs : option pystr :=
  match first_with_exe _FFMPEG_SEARCH_DIRS with
  | Some search_dir => Some search_dir
  | None =>
      if path_isdir M (str "C:\ffmpeg")
      then first_root_with_exe (os_walk M (str "C:\ffmpeg"))
      else None
  end.

Definition _find_ffmpeg : option pystr :=
  match which_ffmpeg M with
  | Some path_result =>
      if str_truthy path_result
      then Some (parent_of M path_result)
      else search_install_dirs
  | None => search_install_dirs
  end.

End Ffmpeg.

(** [_ffmpeg_available]: [FFMPEG_DIR is not None]. *)
Definition _ffmpeg_available (FFMPEG_DIR : option pystr) : bool :=
  match FFMPEG_DIR with Some _ => true | None => false end.

(** ** Inputs used in the examples *)

(** A Unicode database without alphanumerics beyond ASCII.  The links
    below are ASCII, so the matcher never consults it on them. *)
Definition ascii_only : char → bool := λ _, false.

Module LinkExamples.
Definition watch : pystr := str "https://www.youtube.com/watch?v=dQw4w9WgXcQ".
Definition short : pystr := str "https://youtu.be/dQw4w9WgXcQ".
Definition shorts : pystr := str "http://youtube.com/shorts/aB3-_xY9zQ0".
Definition malformed_host : pystr :=
  str "https://www.youtub.com/watch?v=dQw4w9WgXcQ".
Definition other_site : pystr := str "https://vimeo.com/123456789".
(** The short link after a space; with a newline after it as well. *)
Definition padded : pystr := 32%N :: short.
Definition padded_both : pystr := [32%N; 9%N] ++ short ++ [10%N].
End LinkExamples.

Module DownloadExamples.
(** A platform that joins with a slash, a percent rendering that prints
    nothing, and no ffmpeg directory. *)
Definition join : pystr → pystr → pystr := λ a b, a ++ str "/" ++ b.
Definition percent : Qc → pystr := λ _, [].
Definition no_ffmpeg : option pystr := None.

(** Progress events: half way with the size known, past an estimate, the
    size unknown, and the end of the transfer. *)
Definition half_way : progress_event :=
  ProgressEvent (str "downloading") (Some (Qc_of_Z 100)) None
    (Some (Qc_of_Z 50)).
Definition past_total : progress_event :=
  ProgressEvent (str "downloading") (Some (Qc_of_Z 100)) None
    (Some (Qc_of_Z 150)).
Definition past_estimate : progress_event :=
  ProgressEvent (str "downloading") None (Some (Qc_of_Z 100))
    (Some (Qc_of_Z 150)).
Definition size_unknown : progress_event :=
  ProgressEvent (str "downloading") None None (Some (Qc_of_Z 50)).
Definition finished : progress_event :=
  ProgressEvent (str "finished") (Some (Qc_of_Z 100)) None None.

Definition metadata : raw_info :=
  RawInfo (Some (str "clip")) None (Some ResolverExamples.mixed) (Some 212)
    None None.

(** An engine that extracts [metadata] and downloads without error. *)
Definition engine_ok : download_opts → list pystr → engine_run :=
  λ _ _, EngineRun [half_way; finished] None.

Definition world_with (listing : pystr → list pystr + pystr) : world :=
  World (λ _ _, inl metadata) engine_ok listing (λ _, true).

(** The target directory holds one file, none, or two. *)
Definition one_file : world := world_with (λ d, inl [d ++ str "/song.mp3"]).
Definition no_file : world := world_with (λ _, inl []).
Definition two_files : world :=
  world_with (λ d, inl [d ++ str "/clip.f137.mp4.part"; d ++ str "/clip.mp4"]).

(** An engine whose metadata extraction fails. *)
Definition unavailable : world :=
  World (λ _ _, inr (DownloadError (str "Video unavailable")))
        engine_ok (λ _, inl []) (λ _, false).
End DownloadExamples.

Module SessionExamples.
(** The user pastes the watch link and presses the button; the download
    goes to a new directory. *)
Definition first_click : run_input :=
  RunInput LinkExamples.watch 0 AudioOnly 0 true true true
    (str "/tmp/ytdl_a") DownloadExamples.one_file.

(** The user presses the button again; this time [rmtree] cannot remove
    the old directory. *)
Definition second_click_removal_fails : run_input :=
  RunInput LinkExamples.watch 5 AudioOnly 0 true true false
    (str "/tmp/ytdl_b") DownloadExamples.one_file.

(** The same second click with a removal that works. *)
Definition second_click : run_input :=
  RunInput LinkExamples.watch 5 AudioOnly 0 true true true
    (str "/tmp/ytdl_b") DownloadExamples.one_file.

(** The user replaces the link by the short link. *)
Definition new_link : run_input :=
  RunInput LinkExamples.short 9 AudioOnly 0 false true true
    (str "/tmp/ytdl_c") DownloadExamples.one_file.
End SessionExamples.

Module FfmpegExamples.
(** A machine without ffmpeg on the PATH, with [ffmpeg.exe] in the second
    search directory only. *)
Definition in_program_files : machine :=
  Machine None (λ p, p) (str "C:\Users\me\ffmpeg\bin")
    (str "C:\Users\me\Downloads\ffmpeg\bin")
    (λ p, bool_decide (p = str "C:\Program Files\ffmpeg\bin/ffmpeg.exe"))
    (λ _, false) (λ _, []).

(** A machine on which ffmpeg is nowhere. *)
Definition nowhere : machine :=
  Machine None (λ p, p) (str "C:\Users\me\ffmpeg\bin")
    (str "C:\Users\me\Downloads\ffmpeg\bin")
    (λ _, false) (λ _, true)
    (λ _, [(str "C:\ffmpeg", [str "doc"], [str "README.txt"])]).
End FfmpegExamples.

(** * Properties *)

(** ** Strings and labels *)

Lemma str_inj s1 s2 : str s1 = str s2 → s1 = s2.
Proof.
  revert s2; induction s1 as [|a s1 IH]; intros [|b s2] Heq; simpl in *;
    try discriminate; [done|].
  injection Heq as Hab Hs. f_equal; [|by apply IH].
  rewrite <- (ascii_N_embedding a), <- (ascii_N_embedding b). by rewrite Hab.
Qed.

Lemma str_of_int_inj x y : str_of_int x = str_of_int y → x = y.
Proof. intros H. apply str_inj in H. by apply (inj pretty). Qed.

Lemma label_inj x y : label x = label y → x = y.
Proof.
  unfold label. intros H. apply app_inv_tail in H. by apply str_of_int_inj.
Qed.

Example mixed_labels :
  get_available_resolutions ResolverExamples.mixed
  = [str "720p"; str "480p"; str "360p"].
Proof. vm_compute. reflexivity. Qed.

(** ** The resolver *)

Section resolver.

#[local] Instance descending_total : Total descending.
Proof. intros x y. unfold descending. lia. Qed.

#[local] Instance descending_trans : Transitive descending.
Proof. intros x y z. unfold descending. lia. Qed.

Lemma add_height_elem heights fmt h :
  h ∈ add_height heights fmt ↔ h ∈ heights ∨ contributes fmt h.
Proof.
  unfold add_height, contributes, height_truthy.
  destruct (has_video_stream fmt); simpl;
    [|split; [by left|intros [?|(? & _)]; done]].
  destruct (height fmt) as [x|]; simpl;
    [|split; [by left|intros [?|(_ & ? & _)]; done]].
  destruct (Z.eqb_spec x 0) as [->|Hx]; simpl.
  - split; [by left|]. intros [?|(_ & ? & ?)]; [done|congruence].
  - rewrite elem_of_union, elem_of_singleton. split.
    + intros [?| ->]; [by left|by right].
    + intros [?|(_ & [= ->] & _)]; [by left|by right].
Qed.

Lemma foldl_add_height_elem formats heights h :
  h ∈ foldl add_height heights formats
  ↔ h ∈ heights ∨ ∃ fmt, fmt ∈ formats ∧ contributes fmt h.
Proof.
  revert heights; induction formats as [|fmt formats IH]; intros heights; simpl.
  - split; [auto|]. intros [?|(fmt & Hin & _)]; [done|]. by apply elem_of_nil in Hin.
  - rewrite IH, add_height_elem. split.
    + intros [[?|?]|(f & ? & ?)]; [by left| |].
      * right. exists fmt. split; [left|done].
      * right. exists f. split; [by right|done].
    + intros [?|(f & Hin & ?)]; [by left; left|].
      apply elem_of_cons in Hin as [ ->|?]; [by left; right|].
      right. by exists f.
Qed.

Lemma collect_heights_elem formats h :
  h ∈ collect_heights formats ↔ ∃ fmt, fmt ∈ formats ∧ contributes fmt h.
Proof.
  unfold collect_heights. rewrite foldl_add_height_elem.
  split; [|by right]. intros [H|?]; [|done]. by apply not_elem_of_empty in H.
Qed.

Lemma sorted_reverse_elem heights h :
  h ∈ sorted_reverse heights ↔ h ∈ heights.
Proof.
  unfold sorted_reverse. rewrite merge_sort_Permutation. apply elem_of_elements.
Qed.

Lemma sorted_reverse_NoDup heights : NoDup (sorted_reverse heights).
Proof.
  unfold sorted_reverse. rewrite merge_sort_Permutation. apply NoDup_elements.
Qed.

Lemma strictly_descending l :
  NoDup l → StronglySorted descending l → StronglySorted (λ x y, y < x) l.
Proof.
  induction 2 as [|x l Hl IH Hx]; constructor.
  - apply IH. by eapply NoDup_cons_1_2.
  - apply NoDup_cons in H as [Hnot _]. rewrite Forall_forall in *.
    intros y Hy. specialize (Hx y Hy). unfold descending in Hx.
    assert (y ≠ x) by (intros ->; done). lia.
Qed.

Lemma sorted_reverse_strict heights :
  StronglySorted (λ x y, y < x) (sorted_reverse heights).
Proof.
  apply strictly_descending; [apply sorted_reverse_NoDup|].
  unfold sorted_reverse. apply StronglySorted_merge_sort; apply _.
Qed.

Lemma labels_NoDup l : NoDup l → NoDup (label <$> l).
Proof. apply NoDup_fmap_2. intros x y. apply label_inj. Qed.

Lemma collect_heights_skip before fmt after :
  (∀ heights, add_height heights fmt = heights) →
  collect_heights (before ++ fmt :: after) = collect_heights (before ++ after).
Proof.
  intros H. unfold collect_heights. rewrite !foldl_app. simpl. by rewrite H.
Qed.

Lemma add_height_ignored heights fmt :
  height fmt = Some 0 ∨ height fmt = None ∨ has_video_stream fmt = false →
  add_height heights fmt = heights.
Proof.
  unfold add_height, height_truthy.
  intros [ -> | [ -> | -> ] ]; simpl; [|by rewrite andb_false_r|done].
  by rewrite andb_false_r.
Qed.

End resolver.

(** C1, as stated, at a video descriptor of height 0: the claim builds the
    labels from the heights of all video descriptors, so it expects "0p";
    the truthiness test [fmt.get("height")] drops the descriptor and the
    result is empty. *)
Lemma zero_height_not_listed :
  ¬ (∀ (formats : list fmt_dict) (h : Z),
       (∃ fmt, fmt ∈ formats ∧ has_video_stream fmt = true
               ∧ height fmt = Some h) →
       label h ∈ get_available_resolutions formats).
Proof.
  intros H.
  specialize (H ResolverExamples.zero_height 0).
  assert (get_available_resolutions ResolverExamples.zero_height = []) as E
    by (vm_compute; reflexivity).
  rewrite E in H. eapply not_elem_of_nil, H.
  exists (ResolverExamples.video (Some 0)).
  split; [left|]. split; [vm_compute|]; reflexivity.
Qed.

(** C1 (amended): for every list of stream descriptors,
    get_available_resolutions returns labels without duplicates, strictly
    descending by numeric height, each formatted as "{height}p", and the
    heights are exactly the distinct non-zero heights of the descriptors
    whose codec kind is video (descriptors without a video stream, without
    a height or with height 0 are ignored).  On heights 720, 480, 720,
    None, 360 plus an audio-only descriptor the result is
    ["720p", "480p", "360p"]; on an empty input and on an input without
    video descriptors it is empty. *)
Theorem available_resolutions_labels (formats : list fmt_dict) :
  get_available_resolutions formats = label <$> resolution_heights formats
  ∧ NoDup (get_available_resolutions formats)
  ∧ StronglySorted (λ x y, y < x) (resolution_heights formats)
  ∧ (∀ h, h ∈ resolution_heights formats
          ↔ h ≠ 0 ∧ ∃ fmt, fmt ∈ formats ∧ has_video_stream fmt = true
                           ∧ height fmt = Some h)
  ∧ get_available_resolutions ResolverExamples.mixed
    = [str "720p"; str "480p"; str "360p"]
  ∧ get_available_resolutions [] = []
  ∧ ((∀ fmt, fmt ∈ formats → has_video_stream fmt = false) →
     get_available_resolutions formats = []).
Proof.
  assert (∀ h, h ∈ resolution_heights formats
          ↔ h ≠ 0 ∧ ∃ fmt, fmt ∈ formats ∧ has_video_stream fmt = true
                           ∧ height fmt = Some h) as Hmem.
  { intros h. unfold resolution_heights.
    rewrite sorted_reverse_elem, collect_heights_elem. unfold contributes.
    split.
    - intros (fmt & ? & ? & ? & ?). split; [done|]. by exists fmt.
    - intros (? & fmt & ? & ? & ?). by exists fmt. }
  split_and!; try done.
  - apply labels_NoDup, sorted_reverse_NoDup.
  - apply sorted_reverse_strict.
  - intros Hnone. unfold get_available_resolutions.
    fold (resolution_heights formats).
    destruct (resolution_heights formats) as [|h l] eqn:E; [done|].
    destruct (proj1 (Hmem h)) as (_ & fmt & Hfmt & Hv & _); [left|].
    rewrite (Hnone fmt Hfmt) in Hv. discriminate.
Qed.

Lemma available_resolutions_labels_witness :
  get_available_resolutions [ResolverExamples.audio_only; ResolverExamples.storyboard]
  = [].
Proof.
  apply (proj2 (proj2 (proj2 (proj2 (proj2 (proj2
           (available_resolutions_labels
              [ResolverExamples.audio_only; ResolverExamples.storyboard]))))))).
  intros fmt Hin. apply list_elem_of_In in Hin.
  destruct Hin as [<-|[<-|[]]]; reflexivity.
Defined.

(** C10: a descriptor whose height is 0, with or without a video codec, is
    handled like one whose height is missing, and a descriptor without the
    codec-kind field counts as non-video; removing either kind from the
    input leaves the output unchanged, so neither contributes a label. *)
Theorem zero_height_and_missing_codec_ignored
    (before after : list fmt_dict) (fmt : fmt_dict) :
  (height fmt = Some 0 ∨ vcodec fmt = CodecMissing →
   get_available_resolutions (before ++ fmt :: after)
   = get_available_resolutions (before ++ after))
  ∧ get_available_resolutions (before ++ Fmt (vcodec fmt) (Some 0) :: after)
    = get_available_resolutions (before ++ Fmt (vcodec fmt) None :: after)
  ∧ (vcodec fmt = CodecMissing → has_video_stream fmt = false)
  ∧ label 0 ∉ get_available_resolutions (before ++ fmt :: after).
Proof.
  split_and!.
  - intros H. unfold get_available_resolutions. f_equal. f_equal.
    apply collect_heights_skip. intros heights. apply add_height_ignored.
    destruct H as [?|H]; [by left|].
    right; right. unfold has_video_stream. by rewrite H.
  - unfold get_available_resolutions. f_equal. f_equal.
    rewrite !collect_heights_skip; [done|..];
      intros heights; apply add_height_ignored; simpl; auto.
  - intros H. unfold has_video_stream. by rewrite H.
  - unfold get_available_resolutions. intros Hin.
    apply list_elem_of_fmap in Hin as (h & Heq & Hin).
    apply label_inj in Heq as <-.
    apply sorted_reverse_elem, collect_heights_elem in Hin
      as (? & _ & _ & _ & ?).
    done.
Qed.

Lemma zero_height_and_missing_codec_ignored_witness :
  get_available_resolutions
    (ResolverExamples.mixed ++ ResolverExamples.no_codec_key :: [])
  = get_available_resolutions (ResolverExamples.mixed ++ [])
  ∧ has_video_stream ResolverExamples.no_codec_key = false.
Proof.
  split.
  - apply (proj1 (zero_height_and_missing_codec_ignored
                    ResolverExamples.mixed [] ResolverExamples.no_codec_key)).
    right. reflexivity.
  - apply (proj1 (proj2 (proj2 (zero_height_and_missing_codec_ignored [] []
                                  ResolverExamples.no_codec_key)))).
    reflexivity.
Defined.

(** ** The link validator *)

Section validator.

Context (isalnum_unicode : char → bool).

Lemma strip_prefix_Some p s r : strip_prefix p s = Some r ↔ s = p ++ r.
Proof.
  revert s; induction p as [|a p IH]; intros s; simpl.
  - split; [by intros [= ->]|by intros ->].
  - destruct s as [|b s]; [done|].
    destruct (N.eqb_spec a b) as [->|Hab].
    + rewrite IH. split; [by intros ->|by intros [= ->]].
    + split; [done|]. intros [= ? _]. done.
Qed.

Lemma denotes_lit p : denotes (re_lit p) (λ x, x = p).
Proof.
  intros s k. unfold re_lit. split.
  - destruct (strip_prefix p s) as [r|] eqn:E; [|done].
    apply strip_prefix_Some in E. intros Hk. by exists p, r.
  - intros (pre & r & -> & -> & Hk).
    by rewrite (proj2 (strip_prefix_Some p (p ++ r) r) eq_refl).
Qed.

Lemma denotes_seq m1 m2 L1 L2 :
  denotes m1 L1 → denotes m2 L2 →
  denotes (re_seq m1 m2) (λ x, ∃ a b, x = a ++ b ∧ L1 a ∧ L2 b).
Proof.
  unfold denotes. intros H1 H2 s k. unfold re_seq. rewrite H1. split.
  - intros (a & r & -> & Ha & Hm). apply H2 in Hm as (b & r' & -> & Hb & Hk).
    exists (a ++ b), r'. rewrite <- (assoc_L (++)). split_and!; [done| |done].
    by exists a, b.
  - intros (pre & r & -> & (a & b & -> & Ha & Hb) & Hk).
    exists a, (b ++ r). rewrite <- (assoc_L (++)). split_and!; [done..|].
    apply H2. by exists b, r.
Qed.

Lemma denotes_alt m1 m2 L1 L2 :
  denotes m1 L1 → denotes m2 L2 →
  denotes (re_alt m1 m2) (λ x, L1 x ∨ L2 x).
Proof.
  unfold denotes. intros H1 H2 s k. unfold re_alt.
  rewrite orb_true_iff, H1, H2. split.
  - intros [(pre & r & ? & ? & ?)|(pre & r & ? & ? & ?)];
      exists pre, r; auto.
  - intros (pre & r & ? & [?|?] & ?); [left|right]; by exists pre, r.
Qed.

Lemma denotes_opt m L :
  denotes m L → denotes (re_opt m) (λ x, x = [] ∨ L x).
Proof.
  unfold denotes. intros H s k. unfold re_opt. rewrite orb_true_iff, H. split.
  - intros [(pre & r & ? & ? & ?)|Hk]; [exists pre, r; auto|].
    exists [], s. auto.
  - intros (pre & r & -> & [ -> |?] & ?); [by right|left; by exists pre, r].
Qed.

Lemma denotes_class P n :
  denotes (re_class P n)
          (λ x, length x = n ∧ Forall (λ c, P c = true) x).
Proof.
  unfold denotes. induction n as [|n IH]; intros s k; simpl.
  - split.
    + intros Hk. exists [], s. auto.
    + intros (pre & r & -> & (Hlen & _) & Hk).
      by apply nil_length_inv in Hlen as ->.
  - destruct s as [|c s].
    + split; [done|]. intros (pre & r & Heq & (Hlen & _) & _).
      symmetry in Heq. apply app_eq_nil in Heq as [-> _]. done.
    + rewrite andb_true_iff, IH. split.
      * intros (Hc & pre & r & -> & (Hlen & Hall) & Hk).
        exists (c :: pre), r. simpl. split_and!; auto.
      * intros (pre & r & Heq & (Hlen & Hall) & Hk).
        destruct pre as [|c' pre]; [done|]. simpl in *.
        injection Heq as -> ->. injection Hlen as Hlen.
        apply Forall_cons in Hall as [Hc Hall].
        split; [done|]. by exists pre, r.
Qed.

Lemma denotes_ext m L L' :
  denotes m L → (∀ x, L x ↔ L' x) → denotes m L'.
Proof.
  unfold denotes. intros H HL s k. rewrite H. split;
    intros (pre & r & ? & ? & ?); exists pre, r; split_and!; auto;
    by apply HL.
Qed.

Lemma denotes_scheme :
  denotes (re_opt (re_seq (re_lit (str "http"))
             (re_seq (re_opt (re_lit (str "s"))) (re_lit (str "://")))))
          (λ x, x ∈ [[]; str "http://"; str "https://"]).
Proof.
  eapply denotes_ext.
  { apply denotes_opt, denotes_seq; [apply denotes_lit|].
    apply denotes_seq; [apply denotes_opt|]; apply denotes_lit. }
  intros x. rewrite !elem_of_cons, elem_of_nil. split.
  - intros [ -> |(a & b & -> & -> & a' & b' & -> & [ -> | -> ] & ->)]; auto.
  - intros [ -> |[ -> |[ -> |[]]]]; [by left|right..].
    + exists (str "http"), (str "://"). split_and!; [done..|].
      exists [], (str "://"). auto.
    + exists (str "http"), (str "s://"). split_and!; [done..|].
      exists (str "s"), (str "://"). auto.
Qed.

Lemma denotes_www :
  denotes (re_opt (re_lit (str "www."))) (λ x, x ∈ [[]; str "www."]).
Proof.
  eapply denotes_ext; [apply denotes_opt, denotes_lit|].
  intros x. rewrite !elem_of_cons, elem_of_nil. split.
  - intros [ -> | -> ]; auto.
  - intros [ -> |[ -> |[]]]; auto.
Qed.

Lemma denotes_path :
  denotes (re_alt (re_lit (str "youtube.com/watch?v="))
             (re_alt (re_lit (str "youtu.be/"))
                     (re_lit (str "youtube.com/shorts/"))))
          (λ x, x ∈ [str "youtube.com/watch?v="; str "youtu.be/";
                     str "youtube.com/shorts/"]).
Proof.
  eapply denotes_ext.
  { apply denotes_alt; [|apply denotes_alt]; apply denotes_lit. }
  intros x. rewrite !elem_of_cons, elem_of_nil. split.
  - intros [ -> |[ -> | -> ]]; auto.
  - intros [ -> |[ -> |[ -> |[]]]]; auto.
Qed.

(** The matcher built from the pattern accepts the shape the
    specification describes. *)
Lemma search_canonical s :
  search_anchored (_YT_REGEX isalnum_unicode) s = true
  ↔ canonical_link_shape isalnum_unicode s.
Proof.
  unfold search_anchored, canonical_link_shape, _YT_REGEX.
  pose proof (denotes_seq _ _ _ _ denotes_scheme
    (denotes_seq _ _ _ _ denotes_www
      (denotes_seq _ _ _ _ denotes_path
         (denotes_class (ident_char isalnum_unicode) 11)))) as H.
  unfold denotes in H. rewrite H. clear H. split.
  - intros (pre & rest & -> & (scheme & b & -> & Hs & www & c & -> & Hw
            & path & ident & -> & Hp & Hlen & Hall) & _).
    exists scheme, www, path, ident, rest.
    rewrite <- !(assoc_L (++)). split_and!; done.
  - intros (scheme & www & path & ident & rest & -> & Hs & Hw & Hp & Hlen & Hall).
    exists (scheme ++ www ++ path ++ ident), rest.
    rewrite <- !(assoc_L (++)). split_and!; [done| |done].
    exists scheme, (www ++ path ++ ident). split_and!; [done..|].
    exists www, (path ++ ident). split_and!; [done..|].
    exists path, ident. split_and!; done.
Qed.

Lemma is_valid_canonical url :
  is_valid_youtube_url isalnum_unicode url = true
  ↔ canonical_link_shape isalnum_unicode (strip url).
Proof. apply search_canonical. Qed.

(** *** strip *)

Lemma lstrip_app u v :
  lstrip (u ++ v) = match lstrip u with [] => lstrip v | _ => lstrip u ++ v end.
Proof.
  induction u as [|c u IH]; simpl; [by destruct (lstrip v)|].
  destruct (isspace c); [done|]. done.
Qed.

Lemma lstrip_all_space pad :
  Forall (λ c, isspace c = true) pad → lstrip pad = [].
Proof. induction 1 as [|c pad Hc _ IH]; simpl; [done|]. by rewrite Hc. Qed.

Lemma lstrip_lstrip u : lstrip (lstrip u) = lstrip u.
Proof.
  induction u as [|c u IH]; simpl; [done|].
  destruct (isspace c) eqn:E; [done|]. simpl. by rewrite E.
Qed.

Lemma rstrip_cons c u : isspace c = false → rstrip (c :: u) = c :: rstrip u.
Proof.
  intros Hc. unfold rstrip. rewrite reverse_cons, lstrip_app.
  destruct (lstrip (reverse u)) as [|d w].
  - simpl. by rewrite Hc.
  - by rewrite reverse_app.
Qed.

Lemma rstrip_app_space u pad :
  Forall (λ c, isspace c = true) pad → rstrip (u ++ pad) = rstrip u.
Proof.
  intros Hpad. unfold rstrip. rewrite reverse_app, lstrip_app.
  rewrite lstrip_all_space; [done|]. by apply Forall_reverse.
Qed.

Lemma lstrip_rstrip_fixed v : lstrip v = v → lstrip (rstrip v) = rstrip v.
Proof.
  destruct v as [|c v]; [done|]. simpl.
  destruct (isspace c) eqn:E.
  - intros Hv. exfalso.
    assert (length (lstrip v) ≤ length v)%nat as Hle.
    { clear. induction v as [|d v IH]; simpl; [done|].
      destruct (isspace d); simpl; lia. }
    rewrite Hv in Hle. simpl in Hle. lia.
  - intros _. rewrite rstrip_cons by done. simpl. by rewrite E.
Qed.

Lemma strip_strip u : strip (strip u) = strip u.
Proof.
  unfold strip. rewrite lstrip_rstrip_fixed by apply lstrip_lstrip.
  unfold rstrip. by rewrite reverse_involutive, lstrip_lstrip.
Qed.

Lemma strip_padding pad1 u pad2 :
  Forall (λ c, isspace c = true) pad1 →
  Forall (λ c, isspace c = true) pad2 →
  strip (pad1 ++ u ++ pad2) = strip u.
Proof.
  intros H1 H2. unfold strip.
  rewrite lstrip_app, (lstrip_all_space pad1) by done.
  rewrite lstrip_app. destruct (lstrip u) as [|c w] eqn:E.
  - by rewrite (lstrip_all_space pad2).
  - by rewrite rstrip_app_space.
Qed.

End validator.

(** C2, as stated, at the short link preceded by a space: the text does
    not have the canonical shape (it starts with neither a scheme, nor
    [www.], nor the host), whether the shape is read as the whole text or
    as its beginning, and is_valid_youtube_url returns true, because the
    text is stripped before it is matched. *)
Lemma padded_link_accepted :
  ¬ (∀ url : pystr,
       ¬ canonical_link_shape ascii_only url →
       is_valid_youtube_url ascii_only url = false).
Proof.
  intros H. specialize (H LinkExamples.padded).
  assert (is_valid_youtube_url ascii_only LinkExamples.padded = true) as E
    by (vm_compute; reflexivity).
  rewrite H in E; [discriminate|].
  rewrite <- search_canonical. vm_compute. discriminate.
Qed.

(** C2 (amended): for every string whose form without leading and trailing
    whitespace does not begin with the canonical video-link shape
    (optional scheme, optional www., the host with a watch, short-link or
    shorts path, then 11 characters that are letters, digits, hyphens or
    underscores), is_valid_youtube_url returns false, and for every other
    string it returns true; it returns false for the empty string and for
    a malformed host, and true for a standard watch link, a short link and
    a shorts link with an 11-character identifier. *)
Theorem is_valid_youtube_url_shape
    (isalnum_unicode : char → bool) (url : pystr) :
  (¬ canonical_link_shape isalnum_unicode (strip url) →
   is_valid_youtube_url isalnum_unicode url = false)
  ∧ (canonical_link_shape isalnum_unicode (strip url) →
     is_valid_youtube_url isalnum_unicode url = true)
  ∧ is_valid_youtube_url isalnum_unicode [] = false
  ∧ is_valid_youtube_url isalnum_unicode LinkExamples.malformed_host = false
  ∧ is_valid_youtube_url isalnum_unicode LinkExamples.watch = true
  ∧ is_valid_youtube_url isalnum_unicode LinkExamples.short = true
  ∧ is_valid_youtube_url isalnum_unicode LinkExamples.shorts = true.
Proof.
  split_and!; try (vm_compute; reflexivity).
  - intros Hno. apply not_true_is_false. intros Hyes.
    by apply Hno, is_valid_canonical.
  - apply is_valid_canonical.
Qed.

Lemma is_valid_youtube_url_shape_witness :
  is_valid_youtube_url ascii_only LinkExamples.other_site = false
  ∧ is_valid_youtube_url ascii_only LinkExamples.padded_both = true.
Proof.
  split.
  - apply (proj1 (is_valid_youtube_url_shape ascii_only LinkExamples.other_site)).
    rewrite <- search_canonical. vm_compute. discriminate.
  - apply (proj1 (proj2 (is_valid_youtube_url_shape ascii_only
                           LinkExamples.padded_both))).
    rewrite <- search_canonical. vm_compute. reflexivity.
Defined.

(** C9: is_valid_youtube_url is invariant under leading and trailing
    whitespace: its value at a string is its value at the stripped string,
    and padding a string with whitespace on either side does not change
    the value, so a padded valid link is still accepted. *)
Theorem is_valid_youtube_url_strip
    (isalnum_unicode : char → bool) (url pad1 pad2 : pystr) :
  is_valid_youtube_url isalnum_unicode url
  = is_valid_youtube_url isalnum_unicode (strip url)
  ∧ (Forall (λ c, isspace c = true) pad1 →
     Forall (λ c, isspace c = true) pad2 →
     is_valid_youtube_url isalnum_unicode (pad1 ++ url ++ pad2)
     = is_valid_youtube_url isalnum_unicode url).
Proof.
  unfold is_valid_youtube_url. split.
  - by rewrite strip_strip.
  - intros H1 H2. by rewrite strip_padding.
Qed.

Lemma is_valid_youtube_url_strip_witness :
  is_valid_youtube_url ascii_only ([32; 9]%N ++ LinkExamples.short ++ [10]%N)
  = is_valid_youtube_url ascii_only LinkExamples.short
  ∧ is_valid_youtube_url ascii_only LinkExamples.short = true.
Proof.
  split; [|vm_compute; reflexivity].
  apply (proj2 (is_valid_youtube_url_strip ascii_only LinkExamples.short
                  [32; 9]%N [10]%N)).
  - repeat constructor.
  - repeat constructor.
Defined.

(** ** The download options *)

Section options.

Context (os_path_join : pystr → pystr → pystr) (FFMPEG_DIR : option pystr).

Lemma is_digit_not_p c : is_digit c = true → c ≠ 112%N.
Proof. unfold is_digit. intros H ->. discriminate. Qed.

Lemma replace_p_app u v : replace_p (u ++ v) = replace_p u ++ replace_p v.
Proof. apply filter_app. Qed.

Lemma replace_p_digits digits :
  Forall (λ c, is_digit c = true) digits → replace_p digits = digits.
Proof.
  induction 1 as [|c l Hc _ IH]; [done|]. unfold replace_p in *.
  rewrite filter_cons_True by by apply is_digit_not_p. by rewrite IH.
Qed.

Lemma replace_p_only_p ps : Forall (λ c, c = 112%N) ps → replace_p ps = [].
Proof.
  induction 1 as [|c l -> _ IH]; [done|]. unfold replace_p in *.
  rewrite filter_cons_False by (intros H; by apply H). done.
Qed.


(** Removing every [p] yields the numeric prefix only for labels of this
    form. *)
Lemma replace_p_prefix_only r :
  replace_p r = numeric_prefix r →
  ∃ digits ps, r = digits ++ ps ∧ Forall (λ c, is_digit c = true) digits
               ∧ Forall (λ c, c = 112%N) ps.
Proof.
  induction r as [|c r IH]; simpl.
  - intros _. by exists [], [].
  - unfold replace_p in *. destruct (is_digit c) eqn:Hc.
    + rewrite filter_cons_True by by apply is_digit_not_p.
      intros [= H]. destruct (IH H) as (digits & ps & -> & Hd & Hp).
      exists (c :: digits), ps. split_and!; [done| |done]. by constructor.
    + intros H. exists [], (c :: r). split_and!; [done..|].
      apply Forall_forall. intros x Hx. apply dec_stable. intros Hne.
      assert (x ∈ filter (λ c, c ≠ 112%N) (c :: r)) as Hin
        by by apply list_elem_of_filter.
      rewrite H in Hin. by apply elem_of_nil in Hin.
Qed.

Lemma pretty_N_char_digit x :
  (x < 10)%N → is_digit (N_of_ascii (pretty_N_char x)) = true.
Proof.
  intros Hx.
  assert (x = 0 ∨ x = 1 ∨ x = 2 ∨ x = 3 ∨ x = 4 ∨ x = 5 ∨ x = 6 ∨ x = 7
          ∨ x = 8 ∨ x = 9)%N as H by lia.
  repeat (destruct H as [ -> |H]; [reflexivity|]). by subst.
Qed.

Lemma pretty_N_go_digits x s :
  Forall (λ c, is_digit c = true) (str s) →
  Forall (λ c, is_digit c = true) (str (pretty_N_go x s)).
Proof.
  revert s. induction (N.lt_wf_0 x) as [x _ IH]; intros s Hs.
  destruct (decide (x = 0)%N) as [ -> |Hx].
  - by rewrite pretty_N_go_0.
  - rewrite pretty_N_go_step by lia. apply IH.
    + apply N.div_lt; lia.
    + simpl. constructor; [|done].
      apply pretty_N_char_digit, N.mod_lt. lia.
Qed.

Lemma str_of_int_digits h :
  0 ≤ h → Forall (λ c, is_digit c = true) (str_of_int h).
Proof.
  intros Hh. unfold str_of_int. destruct h as [|p|p]; [by repeat constructor| |lia].
  unfold pretty, pretty_Z, pretty, pretty_positive, pretty, pretty_N.
  rewrite decide_False by done. by apply pretty_N_go_digits.
Qed.


Lemma video_format resolution tmp_dir :
  format (build_opts os_path_join FFMPEG_DIR (str "video") resolution tmp_dir)
  = format_expression (height_of resolution).
Proof.
  unfold build_opts. by rewrite decide_False by (vm_compute; discriminate).
Qed.

Lemma video_container resolution tmp_dir :
  merge_output_format
    (build_opts os_path_join FFMPEG_DIR (str "video") resolution tmp_dir)
  = Some (str "mp4").
Proof.
  unfold build_opts. by rewrite decide_False by (vm_compute; discriminate).
Qed.

Lemma height_of_digits digits ps :
  Forall (λ c, is_digit c = true) digits → Forall (λ c, c = 112%N) ps →
  digits ++ ps ≠ [] → height_of (Some (digits ++ ps)) = digits.
Proof.
  intros Hd Hp Hne. unfold height_of.
  destruct (digits ++ ps) eqn:E; [done|]. simpl. rewrite <- E.
  by rewrite replace_p_app, replace_p_digits, replace_p_only_p, app_nil_r.
Qed.

End options.

(** C5: after the engine call has returned without error, download_content
    lists the target directory; with exactly one entry it returns that
    path; with none it reports "Download succeeded but no output file was
    found." and returns no path; with several it returns the first entry
    of the listing. *)
Theorem download_result_from_listing
    (format_percent : Qc → pystr) (os_path_join : pystr → pystr → pystr)
    (FFMPEG_DIR : option pystr) (W : world) (url fmt : pystr)
    (resolution : option pystr) (tmp_dir : pystr) :
  let result := download_content format_percent os_path_join FFMPEG_DIR W
                  url fmt resolution tmp_dir in
  ended (ydl_download W (build_opts os_path_join FFMPEG_DIR fmt resolution
                           tmp_dir) [url]) = None →
  (∀ file, iterdir W tmp_dir = inl [file] → fst result = Some file)
  ∧ (iterdir W tmp_dir = inl [] →
     fst result = None
     ∧ last (snd result)
       = Some (StError (cross_mark ++
           str " Download succeeded but no output file was found.")))
  ∧ (∀ file others, iterdir W tmp_dir = inl (file :: others) →
     fst result = Some file).
Proof.
  cbv zeta. intros Hrun. unfold download_content. rewrite Hrun. split_and!.
  - by intros file ->.
  - intros ->. simpl. split; [done|]. by rewrite last_snoc.
  - by intros file others ->.
Qed.

Lemma download_result_from_listing_witness :
  fst (download_content DownloadExamples.percent DownloadExamples.join
         DownloadExamples.no_ffmpeg DownloadExamples.no_file
         LinkExamples.watch (str "video") (Some (str "480p"))
         (str "/tmp/ytdl_a")) = None
  ∧ fst (download_content DownloadExamples.percent DownloadExamples.join
           DownloadExamples.no_ffmpeg DownloadExamples.two_files
           LinkExamples.watch (str "video") (Some (str "480p"))
           (str "/tmp/ytdl_a")) = Some (str "/tmp/ytdl_a/clip.f137.mp4.part").
Proof.
  split.
  - apply (download_result_from_listing DownloadExamples.percent
             DownloadExamples.join DownloadExamples.no_ffmpeg
             DownloadExamples.no_file LinkExamples.watch (str "video")
             (Some (str "480p")) (str "/tmp/ytdl_a")); reflexivity.
  - apply (proj2 (proj2 (download_result_from_listing DownloadExamples.percent
             DownloadExamples.join DownloadExamples.no_ffmpeg
             DownloadExamples.two_files LinkExamples.watch (str "video")
             (Some (str "480p")) (str "/tmp/ytdl_a") eq_refl))
             _ [str "/tmp/ytdl_a/clip.mp4"]).
    reflexivity.
Defined.

(** ** The progress hook *)

Section progress.

Context (format_percent : Qc → pystr).

Lemma quotient_at_most_one (downloaded total : Qc) :
  (0 < total)%Qc → (downloaded ≤ total)%Qc → ¬ (1 < downloaded / total)%Qc.
Proof.
  intros Hpos Hle. apply Qcle_not_lt.
  apply (Qcmult_lt_0_le_reg_r _ _ total Hpos).
  rewrite Qcmult_1_l, (Qcmult_comm (downloaded / total)), Qcmult_div_r; [done|].
  intros ->. by apply Qclt_not_eq in Hpos.
Qed.

Lemma min_one_below (x : Qc) : ¬ (1 < x)%Qc → min_one x = x.
Proof. intros H. unfold min_one. by rewrite decide_False. Qed.

Lemma min_one_above (x : Qc) : (1 < x)%Qc → min_one x = 1%Qc.
Proof. intros H. unfold min_one. by rewrite decide_True. Qed.

Lemma hook_downloading_known d :
  status d = str "downloading" → (0 < total_of d)%Qc →
  _progress_hook format_percent d
  = [ProgressBar (min_one (downloaded_of d / total_of d))
       (str "Downloading" ++ ellipsis ++ str " "
        ++ format_percent (min_one (downloaded_of d / total_of d)))].
Proof.
  intros Hs Ht. unfold _progress_hook.
  rewrite decide_True by done. by rewrite decide_True by done.
Qed.

End progress.

(** C4, as stated, at an event with 150 bytes downloaded of a total of 100
    (given exactly, or as an estimate): the reported fraction is 1, not
    the quotient 3/2, because the hook caps it with [min(..., 1.0)]. *)
Lemma fraction_capped_at_one :
  ¬ (∀ d : progress_event,
       status d = str "downloading" → (0 < total_of d)%Qc →
       ∃ text, _progress_hook DownloadExamples.percent d
               = [ProgressBar (downloaded_of d / total_of d) text]).
Proof.
  intros H.
  destruct (H DownloadExamples.past_total) as (text & E); [done..|].
  rewrite hook_downloading_known in E by done.
  apply (f_equal (λ l, match l with
                       | [ProgressBar value _] => this value
                       | _ => 0%Q
                       end)) in E.
  vm_compute in E. discriminate.
Qed.

(** C4 (amended): for every progress event delivered to the hook: when the
    phase is downloading and the total size is known, the reported
    fraction is downloaded-bytes / total-bytes capped at 1.0, which is the
    quotient itself whenever the downloaded bytes do not exceed the total;
    when the phase is downloading and the total size is unknown, a status
    text is shown and no fraction; when the phase is finished, fraction
    1.0 is reported with a processing text. *)
Theorem progress_hook_reports (format_percent : Qc → pystr) (d : progress_event) :
  (status d = str "downloading" → (0 < total_of d)%Qc →
   ∃ text, _progress_hook format_percent d
           = [ProgressBar (min_one (downloaded_of d / total_of d)) text])
  ∧ (status d = str "downloading" → (0 < total_of d)%Qc →
     (downloaded_of d ≤ total_of d)%Qc →
     ∃ text, _progress_hook format_percent d
             = [ProgressBar (downloaded_of d / total_of d) text])
  ∧ (status d = str "downloading" → (0 < total_of d)%Qc →
     (total_of d < downloaded_of d)%Qc →
     ∃ text, _progress_hook format_percent d = [ProgressBar 1 text])
  ∧ (status d = str "downloading" → ¬ (0 < total_of d)%Qc →
     _progress_hook format_percent d
     = [StatusText (str "Downloading" ++ ellipsis ++ str " (size unknown)")])
  ∧ (status d = str "finished" →
     _progress_hook format_percent d
     = [ProgressBar 1 (str "Download complete " ++ em_dash
                       ++ str " processing" ++ ellipsis)]).
Proof.
  split_and!.
  - intros Hs Ht. rewrite hook_downloading_known by done. by eexists.
  - intros Hs Ht Hle. rewrite hook_downloading_known by done.
    rewrite min_one_below by by apply quotient_at_most_one. by eexists.
  - intros Hs Ht Hlt. rewrite hook_downloading_known by done.
    rewrite min_one_above; [by eexists|].
    apply Qclt_nge. intros Hle. apply (Qclt_not_le _ _ Hlt).
    apply (Qcmult_le_compat_r _ _ (total_of d)) in Hle;
      [|by apply Qclt_le_weak].
    rewrite Qcmult_1_l, (Qcmult_comm (downloaded_of d / total_of d)),
      Qcmult_div_r in Hle; [done|].
    intros E. rewrite E in Ht. by apply Qclt_not_eq in Ht.
  - intros Hs Ht. unfold _progress_hook.
    rewrite decide_True by done. by rewrite decide_False by done.
  - intros Hs. unfold _progress_hook.
    rewrite decide_False by (rewrite Hs; vm_compute; discriminate).
    by rewrite decide_True by done.
Qed.

Lemma progress_hook_reports_witness :
  (∃ text, _progress_hook DownloadExamples.percent DownloadExamples.half_way
           = [ProgressBar (downloaded_of DownloadExamples.half_way
                           / total_of DownloadExamples.half_way) text])
  ∧ (∃ text, _progress_hook DownloadExamples.percent
               DownloadExamples.past_estimate = [ProgressBar 1 text])
  ∧ _progress_hook DownloadExamples.percent DownloadExamples.size_unknown
    = [StatusText (str "Downloading" ++ ellipsis ++ str " (size unknown)")]
  ∧ _progress_hook DownloadExamples.percent DownloadExamples.finished
    = [ProgressBar 1 (str "Download complete " ++ em_dash
                      ++ str " processing" ++ ellipsis)].
Proof.
  split_and!.
  - apply (proj1 (proj2 (progress_hook_reports DownloadExamples.percent
                           DownloadExamples.half_way))); by vm_compute.
  - apply (proj1 (proj2 (proj2 (progress_hook_reports DownloadExamples.percent
                           DownloadExamples.past_estimate)))); by vm_compute.
  - apply (proj1 (proj2 (proj2 (proj2 (progress_hook_reports
             DownloadExamples.percent DownloadExamples.size_unknown)))));
      [reflexivity|]. vm_compute. discriminate.
  - apply (proj2 (proj2 (proj2 (proj2 (progress_hook_reports
             DownloadExamples.percent DownloadExamples.finished))))).
    reflexivity.
Defined.

(** ** The metadata cache *)

Section metadata.

Context (FFMPEG_DIR : option pystr).
Context (extract_info : info_opts → pystr → raw_info + raised).

Lemma body_on_failure url exc :
  extract_info (InfoOpts true true true (ffmpeg_location FFMPEG_DIR)) url
  = inr exc →
  ∃ prefix, get_video_info_body FFMPEG_DIR extract_info url
            = (None, [StError (prefix ++ exc_text exc)]).
Proof.
  intros H. unfold get_video_info_body. rewrite H. destruct exc; simpl.
  - by exists (cross_mark ++ str " Could not fetch video info: ").
  - by exists (cross_mark ++ str " An unexpected error occurred: ").
Qed.

Lemma get_video_info_miss cache now url :
  (∀ e, cache !! url = Some e → entry_fresh now e = false) →
  get_video_info FFMPEG_DIR extract_info cache now url
  = let '(value, elements) := get_video_info_body FFMPEG_DIR extract_info url in
    InfoCall value elements (<[url := CacheEntry now value elements]> cache) 1.
Proof.
  intros H. unfold get_video_info.
  destruct (cache !! url) as [e|]; [|done]. by rewrite (H e).
Qed.

Lemma get_video_info_hit cache now url e :
  cache !! url = Some e → entry_fresh now e = true →
  get_video_info FFMPEG_DIR extract_info cache now url
  = InfoCall (stored_value e) (stored_elements e) cache 0.
Proof. intros H1 H2. unfold get_video_info. by rewrite H1, H2. Qed.

End metadata.

(** C7, as stated, at an engine that cannot extract the video: the first
    call returns no metadata, yet the cache then holds an entry for the
    URL, and a second call ten seconds later does not reach the engine. *)
Lemma failure_is_cached :
  ¬ (∀ (engine : info_opts → pystr → raw_info + raised)
       (url : pystr) (now later : Z),
       (∃ exc, engine (InfoOpts true true true None) url = inr exc) →
       now ≤ later →
       let first := get_video_info None engine ∅ now url in
       returned first = None
       ∧ cache_after first !! url = None
       ∧ engine_calls
           (get_video_info None engine (cache_after first) later url)
         = 1%nat).
Proof.
  intros H.
  destruct (H (extract_info DownloadExamples.unavailable)
              LinkExamples.watch 0 10) as (_ & Hcache & _); [by eexists|lia|].
  rewrite get_video_info_miss in Hcache by (intros e; by rewrite lookup_empty).
  simpl in Hcache. by rewrite lookup_insert_eq in Hcache.
Qed.

(** C7 (amended): when the engine's metadata extraction fails,
    get_video_info shows a message that carries the engine's text and
    returns None; that result is stored in the cache like any other return
    value, so a later call for the same URL made less than 600 seconds
    after it returns the stored None and message without invoking the
    engine, and only a call made after the entry has expired invokes the
    engine again. *)
Theorem extraction_failure_cached
    (FFMPEG_DIR : option pystr)
    (extract_info : info_opts → pystr → raw_info + raised)
    (cache : gmap pystr cache_entry) (now later : Z) (url : pystr)
    (exc : raised) :
  let first := get_video_info FFMPEG_DIR extract_info cache now url in
  let second :=
    get_video_info FFMPEG_DIR extract_info (cache_after first) later url in
  extract_info (InfoOpts true true true (ffmpeg_location FFMPEG_DIR)) url
  = inr exc →
  (∀ e, cache !! url = Some e → entry_fresh now e = false) →
  returned first = None
  ∧ (∃ prefix, drawn first = [StError (prefix ++ exc_text exc)])
  ∧ engine_calls first = 1%nat
  ∧ cache_after first !! url = Some (CacheEntry now None (drawn first))
  ∧ (later < now + ttl →
     returned second = None ∧ drawn second = drawn first
     ∧ engine_calls second = 0%nat)
  ∧ (now + ttl ≤ later → engine_calls second = 1%nat).
Proof.
  cbv zeta. intros Hfail Hmiss.
  destruct (body_on_failure FFMPEG_DIR extract_info url exc Hfail)
    as (prefix & Hbody).
  rewrite (get_video_info_miss _ _ cache now url Hmiss), Hbody. simpl.
  split_and!; [done|by exists prefix|done|by rewrite lookup_insert_eq|..].
  - intros Hlater.
    erewrite get_video_info_hit
      by first [apply lookup_insert_eq
               |unfold entry_fresh; simpl; by apply Z.ltb_lt].
    done.
  - intros Hlater. rewrite get_video_info_miss, Hbody; [done|].
    intros e. rewrite lookup_insert_eq. intros [= <-].
    unfold entry_fresh. simpl. apply Z.ltb_ge. lia.
Qed.

Lemma extraction_failure_cached_witness :
  engine_calls
    (get_video_info None (extract_info DownloadExamples.unavailable)
       (cache_after
          (get_video_info None (extract_info DownloadExamples.unavailable)
             ∅ 0 LinkExamples.watch))
       10 LinkExamples.watch) = 0%nat.
Proof.
  apply (extraction_failure_cached None
           (extract_info DownloadExamples.unavailable) ∅ 0 10
           LinkExamples.watch (DownloadError (str "Video unavailable"))).
  - reflexivity.
  - intros e. rewrite lookup_empty. discriminate.
  - reflexivity.
Defined.

(** ** The session and its temporary directory *)

Section session.

Context (isalnum_unicode : char → bool) (format_percent : Qc → pystr).
Context (os_path_join : pystr → pystr → pystr) (FFMPEG_DIR : option pystr).

Lemma cleanup_removes a :
  only_current a → temp_dirs (_cleanup_temp true a) = ∅.
Proof.
  intros Hinv. unfold _cleanup_temp. simpl.
  destruct (tmp_dir (session a)) as [old_dir|] eqn:E.
  - destruct (str_truthy old_dir && bool_decide (old_dir ∈ temp_dirs a)) eqn:T.
    + unfold rmtree. apply set_eq. intros d.
      rewrite elem_of_difference, elem_of_singleton.
      split; [|by intros ?%not_elem_of_empty].
      intros [Hd Hne]. destruct (Hinv d Hd) as [Hcur _]. congruence.
    + apply set_eq. intros d. split; [|by intros ?%not_elem_of_empty].
      intros Hd. destruct (Hinv d Hd) as [Hcur Ht].
      assert (d = old_dir) as -> by congruence.
      rewrite Ht, bool_decide_true in T by done. discriminate.
  - apply set_eq. intros d. split; [|by intros ?%not_elem_of_empty].
    intros Hd. destruct (Hinv d Hd) as [Hcur _]. congruence.
Qed.

Lemma on_url_change_dirs i a :
  in_rmtree_on_change i = true → only_current a →
  only_current (on_url_change i a)
  ∧ (in_url i ≠ last_url (session a) → temp_dirs (on_url_change i a) = ∅).
Proof.
  intros Hrm Hinv. unfold on_url_change.
  destruct (decide (in_url i ≠ last_url (session a))) as [Hne|Heq].
  - rewrite Hrm.
    assert (temp_dirs (set_last_url (in_url i)
              (set_video_info None (_cleanup_temp true a))) = ∅) as E.
    { unfold set_last_url, set_video_info, set_session. cbn [temp_dirs].
      by apply cleanup_removes. }
    split; [|done]. intros d. rewrite E. by intros ?%not_elem_of_empty.
  - split; [done|]. by intros ?.
Qed.

Lemma fetch_info_dirs i a :
  temp_dirs (fetch_info isalnum_unicode FFMPEG_DIR i a).1 = temp_dirs a
  ∧ tmp_dir (session (fetch_info isalnum_unicode FFMPEG_DIR i a).1)
    = tmp_dir (session a).
Proof.
  unfold fetch_info. destruct (str_truthy (in_url i)); [|done].
  destruct (is_valid_youtube_url isalnum_unicode (in_url i)); [|done].
  by destruct (returned _).
Qed.

Lemma fetch_info_only_current i a :
  only_current a → only_current (fetch_info isalnum_unicode FFMPEG_DIR i a).1.
Proof.
  intros Hinv d. destruct (fetch_info_dirs i a) as [-> ->]. apply Hinv.
Qed.

Lemma start_download_dirs i a :
  in_rmtree_on_download i = true → str_truthy (in_mkdtemp i) = true →
  only_current a →
  temp_dirs (_cleanup_temp (in_rmtree_on_download i) a) = ∅
  ∧ temp_dirs (start_download i a) = {[ in_mkdtemp i ]}
  ∧ only_current (start_download i a).
Proof.
  intros Hrm Hname Hinv. rewrite Hrm.
  pose proof (cleanup_removes a Hinv) as E.
  assert (temp_dirs (start_download i a) = {[ in_mkdtemp i ]}) as E'.
  { unfold start_download, set_tmp_dir, set_session. cbn [temp_dirs].
    rewrite Hrm, E. apply (left_id_L ∅ (∪)). }
  split_and!; [done..|].
  intros d. rewrite E', elem_of_singleton. by intros ->.
Qed.

Lemma finish_download_dirs i inf a :
  temp_dirs (finish_download format_percent os_path_join FFMPEG_DIR i inf a)
  = temp_dirs a
  ∧ tmp_dir (session (finish_download format_percent os_path_join FFMPEG_DIR
                        i inf a))
    = tmp_dir (session a).
Proof.
  unfold finish_download.
  destruct (download_content _ _ _ _ _ _ _ _) as [[file|] shown]; [|done].
  by destruct (str_truthy file && isfile (in_world i) file).
Qed.

Lemma script_run_only_current i a :
  in_rmtree_on_change i = true → in_rmtree_on_download i = true →
  str_truthy (in_mkdtemp i) = true →
  only_current a →
  only_current (script_run isalnum_unicode format_percent os_path_join
                  FFMPEG_DIR i a).
Proof.
  intros Hrm1 Hrm2 Hname Hinv. unfold script_run.
  pose proof (proj1 (on_url_change_dirs i a Hrm1 Hinv)) as H1.
  pose proof (fetch_info_only_current i _ H1) as H2.
  destruct (fetch_info _ _ _ _) as [a' [inf|]]; simpl in H2; [|done].
  destruct (in_button i); [|done].
  destruct (start_download_dirs i a' Hrm2 Hname H2) as (_ & _ & H3).
  intros d. destruct (finish_download_dirs i inf (start_download i a'))
    as [-> ->]. apply H3.
Qed.

Lemma reachable_only_current a :
  reachable isalnum_unicode format_percent os_path_join FFMPEG_DIR true a →
  only_current a.
Proof.
  induction 1 as [|i a _ IH Hname _ Hrm].
  - intros d Hd. by apply not_elem_of_empty in Hd.
  - destruct (Hrm eq_refl) as [Hrm1 Hrm2]. by apply script_run_only_current.
Qed.

Lemma only_current_size a : only_current a → (size (temp_dirs a) ≤ 1)%nat.
Proof.
  intros Hinv. destruct (tmp_dir (session a)) as [cur|] eqn:E.
  - transitivity (size ({[ cur ]} : gset pystr)); [|by rewrite size_singleton].
    apply subseteq_size. intros d Hd. destruct (Hinv d Hd) as [Hcur _].
    rewrite E in Hcur. injection Hcur as ->. by apply elem_of_singleton.
  - assert (temp_dirs a = ∅) as ->; [|rewrite size_empty; lia].
    apply set_eq. intros d. split; [|by intros ?%not_elem_of_empty].
    intros Hd. destruct (Hinv d Hd) as [Hcur _]. rewrite E in Hcur.
    discriminate.
Qed.

End session.

(** C6, as stated, at two presses of the download button where the second
    [rmtree] fails (it is called with [ignore_errors=True], so the failure
    passes unnoticed): the old directory is still there when the new one
    is made, and two temporary directories exist. *)
Lemma two_temp_dirs_after_failed_removal :
  ¬ (∀ a : app_state,
       reachable ascii_only DownloadExamples.percent DownloadExamples.join
         DownloadExamples.no_ffmpeg false a →
       (size (temp_dirs a) ≤ 1)%nat).
Proof.
  intros H.
  specialize (H (script_run ascii_only DownloadExamples.percent
                   DownloadExamples.join DownloadExamples.no_ffmpeg
                   SessionExamples.second_click_removal_fails
                   (script_run ascii_only DownloadExamples.percent
                      DownloadExamples.join DownloadExamples.no_ffmpeg
                      SessionExamples.first_click initial_state))).
  assert (size (temp_dirs
            (script_run ascii_only DownloadExamples.percent
               DownloadExamples.join DownloadExamples.no_ffmpeg
               SessionExamples.second_click_removal_fails
               (script_run ascii_only DownloadExamples.percent
                  DownloadExamples.join DownloadExamples.no_ffmpeg
                  SessionExamples.first_click initial_state))) = 2%nat) as E
    by (vm_compute; reflexivity).
  rewrite E in H. enough (2 ≤ 1)%nat by lia. apply H.
  apply reach_run; [apply reach_run; [apply reach_init|..]|..];
    first [reflexivity|discriminate].
Qed.

(** C6 (amended): in every state the session can reach by runs in which
    each removal of a temporary directory succeeds, at most one temporary
    directory exists, and it is the one the session holds; in such a run a
    change of the URL leaves no temporary directory, and a download
    trigger removes the previous directory before it creates the new one,
    so that the new directory is the only one when the download starts.
    (The removal itself is best effort: its errors are ignored.) *)
Theorem one_temp_dir
    (isalnum_unicode : char → bool) (format_percent : Qc → pystr)
    (os_path_join : pystr → pystr → pystr) (FFMPEG_DIR : option pystr)
    (a : app_state) :
  reachable isalnum_unicode format_percent os_path_join FFMPEG_DIR true a →
  (size (temp_dirs a) ≤ 1)%nat
  ∧ (∀ d, d ∈ temp_dirs a → tmp_dir (session a) = Some d)
  ∧ (∀ i, in_rmtree_on_change i = true →
          in_url i ≠ last_url (session a) →
          temp_dirs (on_url_change i a) = ∅)
  ∧ (∀ i a' inf,
       in_rmtree_on_change i = true → in_rmtree_on_download i = true →
       str_truthy (in_mkdtemp i) = true →
       fetch_info isalnum_unicode FFMPEG_DIR i (on_url_change i a)
       = (a', Some inf) →
       temp_dirs (_cleanup_temp (in_rmtree_on_download i) a') = ∅
       ∧ temp_dirs (start_download i a') = {[ in_mkdtemp i ]}).
Proof.
  intros Hreach.
  pose proof (reachable_only_current _ _ _ _ a Hreach) as Hinv.
  split_and!.
  - by apply only_current_size.
  - intros d Hd. by destruct (Hinv d Hd).
  - intros i Hrm Hne. by apply on_url_change_dirs.
  - intros i a' inf Hrm1 Hrm2 Hname Hfetch.
    pose proof (proj1 (on_url_change_dirs i a Hrm1 Hinv)) as H1.
    pose proof (fetch_info_only_current isalnum_unicode FFMPEG_DIR i _ H1)
      as H2.
    rewrite Hfetch in H2. simpl in H2.
    destruct (start_download_dirs i a' Hrm2 Hname H2) as (? & ? & _). done.
Qed.

Lemma one_temp_dir_witness :
  (size (temp_dirs
     (script_run ascii_only DownloadExamples.percent DownloadExamples.join
        DownloadExamples.no_ffmpeg SessionExamples.second_click
        (script_run ascii_only DownloadExamples.percent DownloadExamples.join
           DownloadExamples.no_ffmpeg SessionExamples.first_click
           initial_state))) ≤ 1)%nat.
Proof.
  apply (one_temp_dir ascii_only DownloadExamples.percent
           DownloadExamples.join DownloadExamples.no_ffmpeg).
  apply reach_run; [apply reach_run; [apply reach_init|..]|..];
    first [reflexivity|discriminate|by intros _].
Defined.

(** * Further properties of the module *)

(** ** The resolver and the format selection *)

Lemma collect_heights_same_members formats1 formats2 :
  (∀ fmt, fmt ∈ formats1 ↔ fmt ∈ formats2) →
  collect_heights formats1 = collect_heights formats2.
Proof.
  intros H. apply set_eq. intros h. rewrite !collect_heights_elem.
  split; intros (fmt & Hin & Hc); exists fmt; split; try done; by apply H.
Qed.

(** X1: the labels depend only on which descriptors occur in the input,
    not on their order or on how often each occurs. *)
Theorem resolutions_order_insensitive (formats1 formats2 : list fmt_dict) :
  (∀ fmt, fmt ∈ formats1 ↔ fmt ∈ formats2) →
  get_available_resolutions formats1 = get_available_resolutions formats2.
Proof.
  intros H. unfold get_available_resolutions.
  by rewrite (collect_heights_same_members formats1 formats2 H).
Qed.

Lemma resolutions_order_insensitive_witness :
  get_available_resolutions
    [ResolverExamples.video (Some 360); ResolverExamples.video (Some 720);
     ResolverExamples.video (Some 360)]
  = get_available_resolutions
      [ResolverExamples.video (Some 720); ResolverExamples.video (Some 360)].
Proof.
  apply resolutions_order_insensitive. intros fmt.
  rewrite !elem_of_cons, !elem_of_nil. tauto.
Defined.




(** ** The validator: what follows the identifier *)

Lemma lstrip_suffix x : ∃ w, x = w ++ lstrip x.
Proof.
  induction x as [|c x (w & IH)]; simpl; [by exists []|].
  destruct (isspace c); [|by exists []].
  exists (c :: w). simpl. by rewrite <- IH.
Qed.

Lemma rstrip_prefix a : ∃ w, a = rstrip a ++ w.
Proof.
  destruct (lstrip_suffix (reverse a)) as (w & Hw).
  exists (reverse w). unfold rstrip. rewrite <- reverse_app, <- Hw.
  by rewrite reverse_involutive.
Qed.

Lemma rstrip_app a b :
  rstrip (a ++ b) = match rstrip b with [] => rstrip a | _ => a ++ rstrip b end.
Proof.
  unfold rstrip. rewrite reverse_app, lstrip_app.
  destruct (lstrip (reverse b)) as [|c w]; [done|].
  rewrite reverse_app, reverse_involutive.
  destruct (reverse (c :: w)) eqn:E; [|done].
  apply (f_equal reverse) in E. rewrite reverse_involutive in E. done.
Qed.

Lemma strip_app_prefix u rest :
  strip u ≠ [] → ∃ t, strip (u ++ rest) = strip u ++ t.
Proof.
  intros Hne. unfold strip in *. rewrite lstrip_app.
  destruct (lstrip u) as [|c w] eqn:E; [done|].
  rewrite rstrip_app. destruct (rstrip rest) as [|d r].
  - exists []. by rewrite app_nil_r.
  - destruct (rstrip_prefix (c :: w)) as (t & Ht).
    exists (t ++ d :: r). rewrite (assoc_L (++)). by rewrite <- Ht.
Qed.

Lemma canonical_link_shape_length isalnum_unicode s :
  canonical_link_shape isalnum_unicode s → (20 ≤ length s)%nat.
Proof.
  intros (scheme & www & path & ident & rest & -> & _ & _ & Hp & Hlen & _).
  rewrite !length_app, Hlen.
  rewrite !elem_of_cons, elem_of_nil in Hp.
  destruct Hp as [ -> |[ -> |[ -> |[]]]]; simpl; lia.
Qed.

Lemma canonical_link_shape_app isalnum_unicode s t :
  canonical_link_shape isalnum_unicode s →
  canonical_link_shape isalnum_unicode (s ++ t).
Proof.
  intros (scheme & www & path & ident & rest & -> & ? & ? & ? & ? & ?).
  exists scheme, www, path, ident, (rest ++ t).
  rewrite <- !(assoc_L (++)). done.
Qed.

(** X4: the pattern has no end anchor, so whatever is appended to an
    accepted link (a query parameter, a longer identifier, any text)
    leaves it accepted. *)
Theorem accepted_link_stays_accepted
    (isalnum_unicode : char → bool) (url rest : pystr) :
  is_valid_youtube_url isalnum_unicode url = true →
  is_valid_youtube_url isalnum_unicode (url ++ rest) = true.
Proof.
  rewrite !is_valid_canonical. intros Hshape.
  destruct (strip_app_prefix url rest) as (t & ->).
  - apply canonical_link_shape_length in Hshape.
    intros E. rewrite E in Hshape. simpl in Hshape. lia.
  - by apply canonical_link_shape_app.
Qed.

Lemma accepted_link_stays_accepted_witness :
  is_valid_youtube_url ascii_only (LinkExamples.watch ++ str "&t=42s") = true.
Proof.
  apply accepted_link_stays_accepted. vm_compute. reflexivity.
Defined.

(** X5: an accepted text has, once stripped, at least the 20 characters
    of the shortest shape ([youtu.be/] and the identifier); shorter texts,
    among them every link with an identifier of fewer than 11 characters
    and nothing after it, are rejected. *)
Theorem short_text_rejected (isalnum_unicode : char → bool) (url : pystr) :
  (length (strip url) < 20)%nat →
  is_valid_youtube_url isalnum_unicode url = false.
Proof.
  intros Hlen. apply not_true_is_false. rewrite is_valid_canonical.
  intros H%canonical_link_shape_length. lia.
Qed.

Lemma short_text_rejected_witness :
  is_valid_youtube_url ascii_only (str "youtu.be/dQw4w9WgXc") = false.
Proof.
  apply short_text_rejected. vm_compute. lia.
Defined.

(** ** The metadata cache: time to live and keys *)

(** X6: two calls of get_video_info for the same URL, the second made
    less than 600 seconds after the first, reach the engine at most once
    in total, whatever the cache held before, and whether the extraction
    succeeds or fails; after a miss the second call returns what
    the first returned and leaves the cache as it is, and once 600 seconds
    have passed the engine is asked again. *)
Theorem metadata_cached_for_ttl
    (FFMPEG_DIR : option pystr)
    (engine : info_opts → pystr → raw_info + raised)
    (cache : gmap pystr cache_entry) (now later : Z) (url : pystr) :
  let first := get_video_info FFMPEG_DIR engine cache now url in
  let second :=
    get_video_info FFMPEG_DIR engine (cache_after first) later url in
  (later < now + ttl → (engine_calls first + engine_calls second ≤ 1)%nat)
  ∧ (engine_calls first = 1%nat → later < now + ttl →
     engine_calls second = 0%nat ∧ returned second = returned first
     ∧ drawn second = drawn first ∧ cache_after second = cache_after first)
  ∧ (engine_calls first = 1%nat → now + ttl ≤ later →
     engine_calls second = 1%nat).
Proof.
  cbv zeta.
  destruct (get_video_info_body FFMPEG_DIR engine url) as [value elements]
    eqn:Hbody.
  assert (∀ t, get_video_info FFMPEG_DIR engine
                 (<[url:=CacheEntry now value elements]> cache) t url
               = if t <? now + ttl
                 then InfoCall value elements
                        (<[url:=CacheEntry now value elements]> cache) 0
                 else InfoCall value elements
                        (<[url:=CacheEntry t value elements]> cache) 1)
    as Hafter.
  { intros t. unfold get_video_info. rewrite lookup_insert_eq, Hbody.
    unfold entry_fresh. simpl. destruct (t <? now + ttl); [done|].
    by rewrite insert_insert_eq. }
  assert (get_video_info FFMPEG_DIR engine cache now url
          = InfoCall value elements
              (<[url:=CacheEntry now value elements]> cache) 1
          ∨ ∃ e, cache !! url = Some e ∧ entry_fresh now e = true
                 ∧ get_video_info FFMPEG_DIR engine cache now url
                   = InfoCall (stored_value e) (stored_elements e) cache 0)
    as [Hmiss|(e & He & Hfresh & Hhit)].
  { unfold get_video_info. rewrite Hbody.
    destruct (cache !! url) as [e|]; [|by left].
    destruct (entry_fresh now e) eqn:Hfresh; [|by left].
    right. by exists e. }
  - rewrite Hmiss. simpl. rewrite Hafter. split_and!.
    + intros Hl. apply Z.ltb_lt in Hl. rewrite Hl. simpl. lia.
    + intros _ Hl. apply Z.ltb_lt in Hl. by rewrite Hl.
    + intros _ Hl. apply Z.ltb_ge in Hl. by rewrite Hl.
  - rewrite Hhit. simpl. split_and!.
    + intros _. unfold get_video_info. rewrite He, Hbody.
      destruct (entry_fresh later e); simpl; lia.
    + intros [=].
    + intros [=].
Qed.

Lemma metadata_cached_for_ttl_witness :
  (engine_calls
     (get_video_info None (extract_info DownloadExamples.one_file) ∅ 0
        LinkExamples.watch)
   + engine_calls
       (get_video_info None (extract_info DownloadExamples.one_file)
          (cache_after
             (get_video_info None (extract_info DownloadExamples.one_file)
                ∅ 0 LinkExamples.watch))
          599 LinkExamples.watch) ≤ 1)%nat.
Proof.
  apply (metadata_cached_for_ttl None
           (extract_info DownloadExamples.one_file) ∅ 0 599
           LinkExamples.watch).
  reflexivity.
Defined.

Lemma cache_after_other
    (FFMPEG_DIR : option pystr)
    (engine : info_opts → pystr → raw_info + raised)
    (cache : gmap pystr cache_entry) (now : Z) (url other : pystr) :
  (other ≠ url →
   cache_after (get_video_info FFMPEG_DIR engine cache now url) !! other
   = cache !! other)
  ∧ is_Some (cache_after (get_video_info FFMPEG_DIR engine cache now url)
             !! url).
Proof.
  unfold get_video_info.
  destruct (get_video_info_body FFMPEG_DIR engine url) as [value elements].
  destruct (cache !! url) as [e|] eqn:He.
  - destruct (entry_fresh now e); simpl.
    + split; [done|]. by rewrite He.
    + split; [intros Hne; by rewrite lookup_insert_ne|].
      by rewrite lookup_insert_eq.
  - simpl. split; [intros Hne; by rewrite lookup_insert_ne|].
    by rewrite lookup_insert_eq.
Qed.

(** X7: the cache is keyed by the literal URL text: a call for one URL
    leaves the entry of every other URL untouched, however similar the
    two are, and always leaves an entry for its own URL. *)
Theorem cache_keyed_by_literal_url
    (FFMPEG_DIR : option pystr)
    (engine : info_opts → pystr → raw_info + raised)
    (cache : gmap pystr cache_entry) (now : Z) (url other : pystr) :
  let call := get_video_info FFMPEG_DIR engine cache now url in
  (other ≠ url → cache_after call !! other = cache !! other)
  ∧ (∃ e, cache_after call !! url = Some e
          ∧ stored_value e = returned call
          ∧ entry_fresh now e = true).
Proof.
  cbv zeta. unfold get_video_info.
  destruct (get_video_info_body FFMPEG_DIR engine url) as [value elements].
  assert (entry_fresh now (CacheEntry now value elements) = true) as Hnew.
  { unfold entry_fresh, ttl. simpl. apply Z.ltb_lt. lia. }
  destruct (cache !! url) as [e|] eqn:He.
  - destruct (entry_fresh now e) eqn:Hfresh; simpl.
    + split; [done|]. by exists e.
    + split; [intros Hne; by rewrite lookup_insert_ne|].
      eexists. by rewrite lookup_insert_eq.
  - simpl. split; [intros Hne; by rewrite lookup_insert_ne|].
    eexists. by rewrite lookup_insert_eq.
Qed.

Lemma cache_keyed_by_literal_url_witness :
  cache_after
    (get_video_info None (extract_info DownloadExamples.one_file) ∅ 0
       LinkExamples.watch) !! LinkExamples.short = None.
Proof.
  rewrite (proj1 (cache_keyed_by_literal_url None
                    (extract_info DownloadExamples.one_file) ∅ 0
                    LinkExamples.watch LinkExamples.short)).
  - apply lookup_empty.
  - discriminate.
Defined.

(** ** download_content: outcomes, progress values, dispatch *)

Section download_more.

Context (format_percent : Qc → pystr).
Context (os_path_join : pystr → pystr → pystr) (FFMPEG_DIR : option pystr).

Lemma min_one_le (x : Qc) : (min_one x ≤ 1)%Qc.
Proof.
  unfold min_one. destruct (decide (1 < x)%Qc) as [?|Hn]; [done|].
  by apply Qcnot_lt_le.
Qed.

Lemma quotient_nonneg (downloaded total : Qc) :
  (0 < total)%Qc → (0 ≤ downloaded)%Qc → (0 ≤ downloaded / total)%Qc.
Proof.
  intros Hpos Hd. apply (Qcmult_le_mono_pos_r _ _ total Hpos).
  rewrite Qcmult_0_l, (Qcmult_comm (downloaded / total)), Qcmult_div_r;
    [done|].
  intros ->. by apply Qclt_not_eq in Hpos.
Qed.

Lemma hook_value_range d v text :
  ProgressBar v text ∈ _progress_hook format_percent d →
  (v ≤ 1)%Qc ∧ ((0 ≤ downloaded_of d)%Qc → (0 ≤ v)%Qc).
Proof.
  unfold _progress_hook.
  destruct (decide (status d = str "downloading")) as [_|_].
  - destruct (decide (0 < total_of d)%Qc) as [Hpos|_].
    + intros [= -> _]%list_elem_of_singleton. split; [apply min_one_le|].
      intros Hd. unfold min_one.
      destruct (decide (1 < downloaded_of d / total_of d)%Qc); [done|].
      by apply quotient_nonneg.
    + by intros [=]%list_elem_of_singleton.
  - destruct (decide (status d = str "finished")) as [_|_].
    + by intros [= -> _]%list_elem_of_singleton.
    + by intros ?%elem_of_nil.
Qed.

Lemma download_content_log W url fmt resolution tmp_dir :
  let run := ydl_download W (build_opts os_path_join FFMPEG_DIR fmt
                               resolution tmp_dir) [url] in
  let result := download_content format_percent os_path_join FFMPEG_DIR W
                  url fmt resolution tmp_dir in
  let relayed := concat (_progress_hook format_percent <$> events run) in
  (∃ file others, ended run = None
                  ∧ iterdir W tmp_dir = inl (file :: others)
                  ∧ result = (Some file, relayed))
  ∨ (∃ msg, (is_Some (ended run) ∨ ∃ x, iterdir W tmp_dir = inr x
                                   ∨ iterdir W tmp_dir = inl [])
            ∧ result = (None, relayed ++ [StError msg])).
Proof.
  cbv zeta. unfold download_content.
  destruct (ended _) as [[exc|exc]|] eqn:E.
  - right. eexists. split; [left; by eexists|done].
  - right. eexists. split; [left; by eexists|done].
  - destruct (iterdir W tmp_dir) as [[|file others]|x] eqn:D.
    + right. eexists. split; [right; exists []; by right|done].
    + left. by exists file, others.
    + right. eexists. split; [right; exists x; by left|done].
Qed.

Lemma elem_of_concat {A} (x : A) (ls : list (list A)) :
  x ∈ concat ls → ∃ l, x ∈ l ∧ l ∈ ls.
Proof.
  induction ls as [|l ls IH]; simpl; [by intros ?%elem_of_nil|].
  intros [?|Hin]%elem_of_app.
  - exists l. split; [done|left].
  - destruct (IH Hin) as (l' & ? & ?). exists l'. split; [done|by right].
Qed.

End download_more.

(** X8: download_content returns a path exactly when the engine call
    returned without raising and the listing of the target directory is
    not empty, and the path is then the first entry; in every other case
    it returns None and ends its output with exactly one error message,
    after the progress output, so no failure passes in silence. *)
Theorem download_content_outcome
    (format_percent : Qc → pystr) (os_path_join : pystr → pystr → pystr)
    (FFMPEG_DIR : option pystr) (W : world) (url fmt : pystr)
    (resolution : option pystr) (tmp_dir : pystr) :
  let run := ydl_download W (build_opts os_path_join FFMPEG_DIR fmt
                               resolution tmp_dir) [url] in
  let result := download_content format_percent os_path_join FFMPEG_DIR W
                  url fmt resolution tmp_dir in
  let relayed := concat (_progress_hook format_percent <$> events run) in
  (∀ file, fst result = Some file
           ↔ ended run = None
             ∧ ∃ others, iterdir W tmp_dir = inl (file :: others))
  ∧ (is_Some (fst result) → snd result = relayed)
  ∧ (fst result = None → ∃ msg, snd result = relayed ++ [StError msg]).
Proof.
  cbv zeta.
  destruct (download_content_log format_percent os_path_join FFMPEG_DIR W
              url fmt resolution tmp_dir)
    as [(file & others & Hend & Hdir & ->)|(msg & Hwhy & ->)]; simpl.
  - split_and!; [|done|done].
    intros f. rewrite Hend, Hdir. split.
    + intros [= <-]. split; [done|]. by exists others.
    + by intros (_ & o & [= -> _]).
  - split_and!; [|by intros [? [=]]|by exists msg].
    intros f. split; [done|]. intros (Hend & o & Hdir).
    destruct Hwhy as [[? Hs]|(x & [Hx|Hx])]; congruence.
Qed.

Lemma download_content_outcome_witness :
  fst (download_content DownloadExamples.percent DownloadExamples.join
         DownloadExamples.no_ffmpeg DownloadExamples.two_files
         LinkExamples.watch (str "video") None (str "/tmp/ytdl_a"))
  = Some (str "/tmp/ytdl_a/clip.f137.mp4.part").
Proof.
  apply (proj1 (download_content_outcome DownloadExamples.percent
                  DownloadExamples.join DownloadExamples.no_ffmpeg
                  DownloadExamples.two_files LinkExamples.watch (str "video")
                  None (str "/tmp/ytdl_a"))).
  split; [reflexivity|]. eexists. reflexivity.
Defined.

(** X9: every value download_content passes to the progress bar is at
    most 1, and it is at least 0 when no event reports a negative number
    of downloaded bytes; the bar is never asked to show a fraction outside
    the range it accepts. *)
Theorem progress_values_in_range
    (format_percent : Qc → pystr) (os_path_join : pystr → pystr → pystr)
    (FFMPEG_DIR : option pystr) (W : world) (url fmt : pystr)
    (resolution : option pystr) (tmp_dir : pystr) (v : Qc) (text : pystr) :
  let run := ydl_download W (build_opts os_path_join FFMPEG_DIR fmt
                               resolution tmp_dir) [url] in
  ProgressBar v text
    ∈ snd (download_content format_percent os_path_join FFMPEG_DIR W url fmt
             resolution tmp_dir) →
  (v ≤ 1)%Qc
  ∧ ((∀ d, d ∈ events run → (0 ≤ downloaded_of d)%Qc) → (0 ≤ v)%Qc).
Proof.
  cbv zeta. intros Hin.
  assert (ProgressBar v text
          ∈ concat (_progress_hook format_percent
                    <$> events (ydl_download W
                          (build_opts os_path_join FFMPEG_DIR fmt resolution
                             tmp_dir) [url]))) as Hrel.
  { destruct (download_content_log format_percent os_path_join FFMPEG_DIR W
                url fmt resolution tmp_dir)
      as [(file & others & _ & _ & E)|(msg & _ & E)];
      rewrite E in Hin; simpl in Hin; [done|].
    apply elem_of_app in Hin as [?|Hin]; [done|].
    by apply list_elem_of_singleton in Hin. }
  apply elem_of_concat in Hrel as (l & Hv & Hl).
  apply list_elem_of_fmap in Hl as (d & -> & Hd).
  destruct (hook_value_range format_percent d v text Hv) as [Hle Hge].
  split; [done|]. intros Hall. by apply Hge, Hall.
Qed.

Lemma progress_values_in_range_witness :
  (min_one (downloaded_of DownloadExamples.half_way
            / total_of DownloadExamples.half_way) ≤ 1)%Qc.
Proof.
  eapply (progress_values_in_range DownloadExamples.percent
            DownloadExamples.join DownloadExamples.no_ffmpeg
            DownloadExamples.one_file LinkExamples.watch (str "audio") None
            (str "/tmp/ytdl_a") _ _).
  change (snd (download_content DownloadExamples.percent DownloadExamples.join
                 DownloadExamples.no_ffmpeg DownloadExamples.one_file
                 LinkExamples.watch (str "audio") None (str "/tmp/ytdl_a")))
    with (_progress_hook DownloadExamples.percent DownloadExamples.half_way
          ++ (_progress_hook DownloadExamples.percent
                DownloadExamples.finished ++ [])).
  rewrite (hook_downloading_known DownloadExamples.percent
             DownloadExamples.half_way) by (vm_compute; reflexivity).
  left.
Defined.

(** X10: download_content does not check the format name: every value
    other than the exact text "audio" is treated as a video request, and
    an audio request builds the same options whatever resolution comes
    with it. *)
Theorem format_dispatch
    (os_path_join : pystr → pystr → pystr) (FFMPEG_DIR : option pystr)
    (fmt : pystr) (resolution other : option pystr) (tmp_dir : pystr) :
  (fmt ≠ str "audio" →
   build_opts os_path_join FFMPEG_DIR fmt resolution tmp_dir
   = build_opts os_path_join FFMPEG_DIR (str "video") resolution tmp_dir)
  ∧ build_opts os_path_join FFMPEG_DIR (str "audio") resolution tmp_dir
    = build_opts os_path_join FFMPEG_DIR (str "audio") other tmp_dir.
Proof.
  unfold build_opts. split.
  - intros Hne. rewrite decide_False by done.
    by rewrite decide_False by (vm_compute; discriminate).
  - by rewrite decide_True.
Qed.

Lemma format_dispatch_witness :
  build_opts DownloadExamples.join DownloadExamples.no_ffmpeg (str "Audio")
    (Some (str "360p")) (str "/tmp/ytdl_a")
  = build_opts DownloadExamples.join DownloadExamples.no_ffmpeg (str "video")
      (Some (str "360p")) (str "/tmp/ytdl_a").
Proof.
  apply (proj1 (format_dispatch DownloadExamples.join
                  DownloadExamples.no_ffmpeg (str "Audio")
                  (Some (str "360p")) None (str "/tmp/ytdl_a"))).
  vm_compute. discriminate.
Defined.

(** ** _fmt_duration *)

Lemma digits_then_other d1 d2 c1 c2 (r1 r2 : pystr) :
  Forall (λ c, is_digit c = true) d1 → Forall (λ c, is_digit c = true) d2 →
  is_digit c1 = false → is_digit c2 = false →
  d1 ++ c1 :: r1 = d2 ++ c2 :: r2 → d1 = d2 ∧ c1 = c2 ∧ r1 = r2.
Proof.
  intros H1. revert d2. induction H1 as [|x d1 Hx _ IH]; intros d2 H2 Hc1 Hc2.
  - destruct H2 as [|y d2 Hy _]; simpl.
    + by intros [= -> ->].
    + intros [= -> _]. congruence.
  - destruct H2 as [|y d2 Hy H2]; simpl.
    + intros [= -> _]. congruence.
    + intros [= -> E]. destruct (IH d2 H2 Hc1 Hc2 E) as (-> & -> & ->). done.
Qed.

Lemma pretty_N_go_length x s :
  (String.length s ≤ String.length (pretty_N_go x s))%nat.
Proof.
  revert s. induction (N.lt_wf_0 x) as [x _ IH]; intros s.
  destruct (decide (x = 0)%N) as [ -> |Hx].
  - by rewrite pretty_N_go_0.
  - rewrite pretty_N_go_step by lia.
    etrans; [|apply IH; apply N.div_lt; lia]. simpl. lia.
Qed.

Lemma str_of_int_nonempty h : str_of_int h ≠ [].
Proof.
  unfold str_of_int. destruct h as [|p|p]; [done| |done].
  unfold pretty, pretty_Z, pretty, pretty_positive, pretty, pretty_N.
  rewrite decide_False by done.
  pose proof (pretty_N_go_length (N.pos p) "") as Hlen.
  rewrite pretty_N_go_step in * by lia.
  pose proof (pretty_N_go_length (N.pos p `div` 10)
                (String (pretty_N_char (N.pos p `mod` 10)) "")) as Hlen'.
  destruct (pretty_N_go _ _); [simpl in Hlen'; lia|done].
Qed.

(** The three numbers the function prints for a positive duration. *)
Lemma fmt_duration_parts seconds :
  0 < seconds →
  ∃ h m s, seconds = 3600 * h + 60 * m + s
           ∧ 0 ≤ h ∧ 0 ≤ m < 60 ∧ 0 ≤ s < 60
           ∧ _fmt_duration seconds
             = if h =? 0
               then str_of_int m ++ str "m " ++ str_of_int s ++ str "s"
               else str_of_int h ++ str "h " ++ str_of_int m ++ str "m "
                    ++ str_of_int s ++ str "s".
Proof.
  intros Hpos. unfold _fmt_duration.
  rewrite (proj2 (Z.leb_gt seconds 0)) by done.
  pose proof (Z.div_eucl_eq seconds 60 ltac:(done)) as E1.
  pose proof (Z.mod_pos_bound seconds 60 ltac:(done)) as B1.
  unfold Z.modulo in B1.
  destruct (Z.div_eucl seconds 60) as [m0 s].
  pose proof (Z.div_eucl_eq m0 60 ltac:(done)) as E2.
  pose proof (Z.mod_pos_bound m0 60 ltac:(done)) as B2.
  unfold Z.modulo in B2.
  destruct (Z.div_eucl m0 60) as [h m].
  exists h, m, s. split_and!; try lia.
  by destruct (h =? 0).
Qed.

Lemma fmt_duration_nonpositive seconds :
  seconds ≤ 0 → _fmt_duration seconds = str "Unknown".
Proof.
  intros H. unfold _fmt_duration. by rewrite (proj2 (Z.leb_le seconds 0)).
Qed.

Lemma fmt_duration_positive_not_unknown seconds :
  0 < seconds → _fmt_duration seconds ≠ str "Unknown".
Proof.
  intros Hpos E.
  destruct (fmt_duration_parts seconds Hpos)
    as (h & m & s & _ & Hh & Hm & Hs & Htext).
  rewrite Htext in E. clear Htext.
  assert (∀ x rest, 0 ≤ x → str_of_int x ++ rest ≠ str "Unknown") as Hno.
  { intros x rest Hx Heq.
    pose proof (str_of_int_digits x Hx) as Hd.
    pose proof (str_of_int_nonempty x) as Hne.
    destruct (str_of_int x) as [|c d]; [done|].
    apply Forall_cons in Hd as [Hc _]. simpl in Heq.
    injection Heq as -> _. discriminate. }
  destruct (h =? 0);
    [apply (Hno m _ (proj1 Hm) E)|apply (Hno h _ Hh E)].
Qed.

Lemma fmt_duration_inj a b :
  0 < a → 0 < b → _fmt_duration a = _fmt_duration b → a = b.
Proof.
  intros Ha Hb E.
  destruct (fmt_duration_parts a Ha)
    as (h1 & m1 & s1 & -> & Hh1 & Hm1 & Hs1 & T1).
  destruct (fmt_duration_parts b Hb)
    as (h2 & m2 & s2 & -> & Hh2 & Hm2 & Hs2 & T2).
  rewrite T1, T2 in E. clear T1 T2 Ha Hb.
  change (str "h ") with ([104; 32]%N : pystr) in E.
  change (str "m ") with ([109; 32]%N : pystr) in E.
  change (str "s") with ([115]%N : pystr) in E.
  assert (∀ x, 0 ≤ x → Forall (λ c, is_digit c = true) (str_of_int x))
    as Hd by apply str_of_int_digits.
  destruct (Z.eqb_spec h1 0) as [ -> |N1], (Z.eqb_spec h2 0) as [ -> |N2];
    simpl in E.
  - apply digits_then_other in E as (Em & _ & E); [|auto with lia..].
    injection E as E.
    apply digits_then_other in E as (Es & _ & _); [|auto with lia..].
    apply str_of_int_inj in Em, Es. lia.
  - apply digits_then_other in E as (_ & [=] & _); auto with lia.
  - apply digits_then_other in E as (_ & [=] & _); auto with lia.
  - apply digits_then_other in E as (Eh & _ & E); [|auto with lia..].
    injection E as E.
    apply digits_then_other in E as (Em & _ & E); [|auto with lia..].
    injection E as E.
    apply digits_then_other in E as (Es & _ & _); [|auto with lia..].
    apply str_of_int_inj in Eh, Em, Es. lia.
Qed.

(** X11: _fmt_duration shows "Unknown" exactly for the durations that are
    not positive, and two durations are shown by the same text only when
    they are equal or both not positive: no two positive durations share a
    text. *)
Theorem fmt_duration_faithful (a b : Z) :
  (_fmt_duration a = str "Unknown" ↔ a ≤ 0)
  ∧ (_fmt_duration a = _fmt_duration b ↔ (a ≤ 0 ∧ b ≤ 0) ∨ a = b).
Proof.
  split.
  - split; [|apply fmt_duration_nonpositive].
    intros E. destruct (decide (a ≤ 0)) as [?|Hn]; [done|].
    by destruct (fmt_duration_positive_not_unknown a ltac:(lia)).
  - split.
    + intros E. destruct (decide (a ≤ 0)) as [Ha|Ha], (decide (b ≤ 0)) as [Hb|Hb].
      * by left.
      * rewrite (fmt_duration_nonpositive a Ha) in E. symmetry in E.
        by destruct (fmt_duration_positive_not_unknown b ltac:(lia)).
      * rewrite (fmt_duration_nonpositive b Hb) in E.
        by destruct (fmt_duration_positive_not_unknown a ltac:(lia)).
      * right. apply fmt_duration_inj; [lia..|done].
    + intros [[Ha Hb]| -> ]; [|done].
      by rewrite !fmt_duration_nonpositive.
Qed.

(** X12: for a positive duration the text carries hours, minutes and
    seconds that add up to the duration, with minutes and seconds below
    60; the hours are left out exactly when the duration is under an
    hour. *)
Theorem fmt_duration_components (seconds : Z) :
  0 < seconds →
  ∃ h m s, seconds = 3600 * h + 60 * m + s
           ∧ 0 ≤ h ∧ 0 ≤ m < 60 ∧ 0 ≤ s < 60
           ∧ (seconds < 3600 →
              _fmt_duration seconds
              = str_of_int m ++ str "m " ++ str_of_int s ++ str "s")
           ∧ (3600 ≤ seconds →
              _fmt_duration seconds
              = str_of_int h ++ str "h " ++ str_of_int m ++ str "m "
                ++ str_of_int s ++ str "s").
Proof.
  intros Hpos.
  destruct (fmt_duration_parts seconds Hpos)
    as (h & m & s & E & Hh & Hm & Hs & T).
  exists h, m, s. split_and!; try lia.
  - intros Hlt. rewrite T. assert (h = 0) as -> by lia. done.
  - intros Hge. rewrite T. destruct (Z.eqb_spec h 0); [lia|done].
Qed.

Lemma fmt_duration_components_witness :
  ∃ h m s, 3725 = 3600 * h + 60 * m + s
           ∧ 0 ≤ h ∧ 0 ≤ m < 60 ∧ 0 ≤ s < 60
           ∧ (3725 < 3600 →
              _fmt_duration 3725
              = str_of_int m ++ str "m " ++ str_of_int s ++ str "s")
           ∧ (3600 ≤ 3725 →
              _fmt_duration 3725
              = str_of_int h ++ str "h " ++ str_of_int m ++ str "m "
                ++ str_of_int s ++ str "s").
Proof. apply (fmt_duration_components 3725). lia. Defined.

Lemma fmt_duration_faithful_witness :
  _fmt_duration 0 = _fmt_duration (-5).
Proof.
  apply (proj2 (proj2 (fmt_duration_faithful 0 (-5)))). left. lia.
Defined.

(** ** The script: what a run keeps and what it resets *)

Section script.

Context (isalnum_unicode : char → bool) (format_percent : Qc → pystr).
Context (os_path_join : pystr → pystr → pystr) (FFMPEG_DIR : option pystr).

#[local] Abbreviation run :=
  (script_run isalnum_unicode format_percent os_path_join FFMPEG_DIR).
#[local] Abbreviation fetch := (fetch_info isalnum_unicode FFMPEG_DIR).
#[local] Abbreviation finish :=
  (finish_download format_percent os_path_join FFMPEG_DIR).

Lemma cleanup_session removed a :
  session (_cleanup_temp removed a)
  = Session (video_info (session a)) None false None (last_url (session a))
  ∧ cache (_cleanup_temp removed a) = cache a
  ∧ temp_dirs (_cleanup_temp removed a) ⊆ temp_dirs a.
Proof.
  unfold _cleanup_temp. simpl. split_and!; [done..|].
  destruct (tmp_dir (session a)) as [old_dir|]; [|done].
  destruct (str_truthy old_dir && bool_decide (old_dir ∈ temp_dirs a));
    [|done].
  unfold rmtree. destruct removed; [|done]. apply subseteq_difference_l. done.
Qed.

Lemma cleanup_keeps_other removed a d :
  d ∈ temp_dirs a → tmp_dir (session a) ≠ Some d →
  d ∈ temp_dirs (_cleanup_temp removed a).
Proof.
  intros Hd Hne. unfold _cleanup_temp. simpl.
  destruct (tmp_dir (session a)) as [old_dir|]; [|done].
  destruct (str_truthy old_dir && bool_decide (old_dir ∈ temp_dirs a));
    [|done].
  unfold rmtree. destruct removed; [|done].
  apply elem_of_difference. split; [done|].
  rewrite elem_of_singleton. congruence.
Qed.

Lemma on_url_change_session i a :
  last_url (session (on_url_change i a)) = in_url i
  ∧ cache (on_url_change i a) = cache a
  ∧ temp_dirs (on_url_change i a) ⊆ temp_dirs a
  ∧ (in_url i ≠ last_url (session a) →
     session (on_url_change i a) = Session None None false None (in_url i))
  ∧ (in_url i = last_url (session a) → on_url_change i a = a).
Proof.
  unfold on_url_change.
  destruct (decide (in_url i ≠ last_url (session a))) as [Hne|Heq].
  - destruct (cleanup_session (in_rmtree_on_change i) a) as (_ & _ & Hd).
    unfold set_last_url, set_video_info, set_session, _cleanup_temp in *.
    simpl in *. split_and!; try done.
  - apply dec_stable in Heq. split_and!; try done.
Qed.

Lemma fetch_session i a :
  let a' := (fetch i a).1 in
  temp_dirs a' = temp_dirs a
  ∧ tmp_dir (session a') = tmp_dir (session a)
  ∧ downloaded_file (session a') = downloaded_file (session a)
  ∧ download_ready (session a') = download_ready (session a)
  ∧ last_url (session a') = last_url (session a)
  ∧ (video_info (session a') = video_info (session a)
     ∨ is_valid_youtube_url isalnum_unicode (in_url i) = true)
  ∧ (is_Some (fetch i a).2 →
     is_valid_youtube_url isalnum_unicode (in_url i) = true
     ∧ str_truthy (in_url i) = true).
Proof.
  cbv zeta. unfold fetch_info.
  destruct (str_truthy (in_url i));
    [|split_and!; try done; [by left|by intros [? [=]]]].
  destruct (is_valid_youtube_url isalnum_unicode (in_url i));
    [|split_and!; try done; [by left|by intros [? [=]]]].
  destruct (returned _); simpl; split_and!; try done; by right.
Qed.

Lemma start_download_session i a :
  session (start_download i a)
  = Session (video_info (session a)) None false (Some (in_mkdtemp i))
      (last_url (session a))
  ∧ cache (start_download i a) = cache a
  ∧ temp_dirs (start_download i a)
    = temp_dirs (_cleanup_temp (in_rmtree_on_download i) a)
      ∪ {[ in_mkdtemp i ]}.
Proof. done. Qed.

Lemma finish_session i inf a :
  finish i inf a = a
  ∨ ∃ file, str_truthy file = true ∧ finish i inf a = set_downloaded file a.
Proof.
  unfold finish_download.
  destruct (download_content _ _ _ _ _ _ _ _) as [[file|] shown]; [|by left].
  destruct (str_truthy file) eqn:T; simpl; [|by left].
  destruct (isfile (in_world i) file); [|by left].
  right. by exists file.
Qed.

(** The run written as its phases. *)
Lemma run_phases i a :
  run i a
  = match fetch i (on_url_change i a) with
    | (a', Some inf) =>
        if in_button i then finish i inf (start_download i a') else a'
    | (a', None) => a'
    end.
Proof. done. Qed.

(** X13: a run never removes a temporary directory other than the one
    the session holds: a directory that exists and is not the session's
    current one (one whose removal failed) is still there after the run
    and is still not the current one, whatever the run does. *)
Theorem abandoned_dir_never_removed (i : run_input) (a : app_state) (d : pystr) :
  d ∈ temp_dirs a → tmp_dir (session a) ≠ Some d → in_mkdtemp i ≠ d →
  d ∈ temp_dirs (run i a) ∧ tmp_dir (session (run i a)) ≠ Some d.
Proof.
  intros Hd Hcur Hnew.
  assert (d ∈ temp_dirs (on_url_change i a)
          ∧ tmp_dir (session (on_url_change i a)) ≠ Some d) as [Hd1 Hcur1].
  { unfold on_url_change. destruct (decide _); [|done].
    split; [|done]. by apply cleanup_keeps_other. }
  rewrite run_phases.
  destruct (fetch_session i (on_url_change i a)) as (Et & Ec & _).
  destruct (fetch i (on_url_change i a)) as [a' [inf|]]; simpl in Et, Ec;
    [|by rewrite Et, Ec].
  destruct (in_button i); [|by rewrite Et, Ec].
  assert (d ∈ temp_dirs (start_download i a')
          ∧ tmp_dir (session (start_download i a')) ≠ Some d) as [Hd2 Hcur2].
  { destruct (start_download_session i a') as (-> & _ & ->). simpl.
    split; [|congruence].
    apply elem_of_union_l, cleanup_keeps_other; by rewrite ?Et, ?Ec. }
  destruct (finish_session i inf (start_download i a'))
    as [ -> |(file & _ & ->)]; done.
Qed.

(** X14: after every run the session's last URL is the URL in the input
    box.  A run in which that URL differs from the previous one and the
    button is not pressed leaves the session without directory, file and
    ready flag, and with metadata only if the new URL passed validation;
    when the removal succeeds no temporary directory is left, also after
    a failed download. *)
Theorem run_resets_on_url_change (i : run_input) (a : app_state) :
  last_url (session (run i a)) = in_url i
  ∧ (in_url i ≠ last_url (session a) → in_button i = false →
     tmp_dir (session (run i a)) = None
     ∧ downloaded_file (session (run i a)) = None
     ∧ download_ready (session (run i a)) = false
     ∧ (is_valid_youtube_url isalnum_unicode (in_url i) = false →
        video_info (session (run i a)) = None)
     ∧ (in_rmtree_on_change i = true → only_current a →
        temp_dirs (run i a) = ∅)).
Proof.
  rewrite run_phases.
  destruct (on_url_change_session i a) as (Hl & _ & _ & Hchg & _).
  destruct (fetch_session i (on_url_change i a))
    as (Et & Ec & Ef & Er & El & Ev & _).
  split.
  - destruct (fetch i (on_url_change i a)) as [a' [inf|]]; simpl in *;
      [|congruence].
    destruct (in_button i); [|congruence].
    destruct (finish_session i inf (start_download i a'))
      as [ -> |(file & _ & ->)]; simpl; congruence.
  - intros Hne Hb. rewrite Hb. specialize (Hchg Hne).
    rewrite Hchg in *. simpl in *.
    assert (∀ b, (fetch i (on_url_change i a)).1 = b →
                 tmp_dir (session b) = None
                 ∧ downloaded_file (session b) = None
                 ∧ download_ready (session b) = false
                 ∧ (is_valid_youtube_url isalnum_unicode (in_url i) = false →
                    video_info (session b) = None)
                 ∧ (in_rmtree_on_change i = true → only_current a →
                    temp_dirs b = ∅)) as Hall.
    { intros b <-. split_and!; try done.
      - intros Hinv. destruct Ev as [Ev|Ev]; congruence.
      - intros Hrm Hinv. rewrite Et. by apply on_url_change_dirs. }
    destruct (fetch i (on_url_change i a)) as [b [inf|]]; by apply Hall.
Qed.

Lemma step_consistent i a :
  session_consistent a → session_consistent (run i a).
Proof.
  intros Hinv.
  assert (session_consistent (on_url_change i a)) as H1.
  { destruct (on_url_change_session i a) as (_ & _ & _ & Hchg & Hsame).
    destruct (decide (in_url i = last_url (session a))) as [E|E].
    - by rewrite (Hsame E).
    - unfold session_consistent. rewrite (Hchg E). simpl.
      split_and!; [done..|]. by intros [? [=]]. }
  rewrite run_phases.
  destruct (fetch_session i (on_url_change i a))
    as (Et & Ec & Ef & Er & _).
  assert (session_consistent (fetch i (on_url_change i a)).1) as H2.
  { unfold session_consistent. by rewrite Et, Ec, Ef, Er. }
  destruct (fetch i (on_url_change i a)) as [a' [inf|]]; simpl in H2; [|done].
  destruct (in_button i); [|done].
  destruct (start_download_session i a') as (Es & _ & Ed).
  assert (session_consistent (start_download i a')) as H3.
  { unfold session_consistent. rewrite Es, Ed. simpl. split_and!.
    - intros d [= <-]. apply elem_of_union_r. by apply elem_of_singleton.
    - done.
    - by intros [? [=]]. }
  destruct (finish_session i inf (start_download i a'))
    as [ -> |(file & Hfile & ->)]; [done|].
  destruct H3 as (Hdir & _ & _). unfold session_consistent, set_downloaded,
    set_session. rewrite Es in *. simpl in *. split_and!; [done| |done].
  intros _. exists file. split_and!; [done..|]. by eexists.
Qed.

(** X15: in every state the page can reach, with or without failing
    removals, the directory the session names exists, a download marked
    ready has a non-empty file path and a directory, and a recorded file
    is always marked ready. *)
Theorem session_stays_consistent (reliable : bool) (a : app_state) :
  reachable isalnum_unicode format_percent os_path_join FFMPEG_DIR
    reliable a →
  session_consistent a.
Proof.
  induction 1 as [|i a _ IH _ _ _].
  - split_and!; [done|done|]. by intros [? [=]].
  - by apply step_consistent.
Qed.

(** X16: when the URL in the box is empty or fails validation, the run
    ends after the reset: the cache is unchanged, no directory is made,
    and the resulting state does not depend on the engine, the clock, the
    button or the chosen format. *)
Theorem invalid_url_stops_run (i i' : run_input) (a : app_state) :
  str_truthy (in_url i) = false
  ∨ is_valid_youtube_url isalnum_unicode (in_url i) = false →
  cache (run i a) = cache a
  ∧ temp_dirs (run i a) ⊆ temp_dirs a
  ∧ (in_url i ≠ last_url (session a) → video_info (session (run i a)) = None)
  ∧ (in_url i' = in_url i →
     in_rmtree_on_change i' = in_rmtree_on_change i →
     run i' a = run i a).
Proof.
  intros Hbad.
  assert (∀ j b, in_url j = in_url i → fetch j b = (b, None)) as Hfetch.
  { intros j b Hj. unfold fetch_info. rewrite Hj.
    destruct Hbad as [ -> | Hv]; [done|]. rewrite Hv.
    by destruct (str_truthy (in_url i)). }
  rewrite run_phases, (Hfetch i _ eq_refl).
  destruct (on_url_change_session i a) as (_ & Hc & Hd & Hchg & _).
  split_and!; [done|done| |].
  - intros Hne. by rewrite (Hchg Hne).
  - intros Hu Hr. rewrite run_phases, (Hfetch i' _ Hu).
    unfold on_url_change. by rewrite Hu, Hr.
Qed.

Lemma step_validated i a :
  (∀ url e, cache a !! url = Some e →
            is_valid_youtube_url isalnum_unicode url = true) →
  (is_Some (video_info (session a)) →
   is_valid_youtube_url isalnum_unicode (last_url (session a)) = true) →
  (∀ url e, cache (run i a) !! url = Some e →
            is_valid_youtube_url isalnum_unicode url = true)
  ∧ (is_Some (video_info (session (run i a))) →
     is_valid_youtube_url isalnum_unicode (last_url (session (run i a)))
     = true).
Proof.
  intros Hcache Hinfo.
  destruct (on_url_change_session i a) as (Hl & Hc & _ & Hchg & Hsame).
  assert (is_Some (video_info (session (on_url_change i a))) →
          is_valid_youtube_url isalnum_unicode (in_url i) = true) as Hinfo1.
  { destruct (decide (in_url i = last_url (session a))) as [E|E].
    - rewrite (Hsame E), E. apply Hinfo.
    - rewrite (Hchg E). simpl. by intros [? [=]]. }
  assert (∀ url e, cache (fetch i (on_url_change i a)).1 !! url = Some e →
                   is_valid_youtube_url isalnum_unicode url = true) as Hc2.
  { unfold fetch_info. destruct (str_truthy (in_url i));
      [|simpl; by rewrite Hc].
    destruct (is_valid_youtube_url isalnum_unicode (in_url i)) eqn:Hv;
      [|simpl; by rewrite Hc].
    assert (∀ url e,
              cache_after (get_video_info FFMPEG_DIR
                (extract_info (in_world i)) (cache (on_url_change i a))
                (in_now i) (in_url i)) !! url = Some e →
              is_valid_youtube_url isalnum_unicode url = true) as Hafter.
    { intros url e. destruct (decide (url = in_url i)) as [ -> |Hne]; [done|].
      rewrite (proj1 (cache_after_other _ _ _ _ _ _)) by done.
      rewrite Hc. apply Hcache. }
    by destruct (returned _). }
  destruct (fetch_session i (on_url_change i a))
    as (_ & _ & _ & _ & El & Ev & _).
  assert (is_Some (video_info (session (fetch i (on_url_change i a)).1)) →
          is_valid_youtube_url isalnum_unicode
            (last_url (session (fetch i (on_url_change i a)).1)) = true)
    as Hi2.
  { rewrite El, Hl. destruct Ev as [ -> |?]; done. }
  rewrite run_phases.
  destruct (fetch i (on_url_change i a)) as [a' [inf|]]; simpl in *; [|done].
  destruct (in_button i); [|done].
  destruct (start_download_session i a') as (Es & Ec & _).
  destruct (finish_session i inf (start_download i a'))
    as [ -> |(file & _ & ->)]; unfold set_downloaded, set_session;
    simpl; rewrite ?Es, ?Ec; simpl; done.
Qed.

(** X17: in every state the page can reach, each URL with an entry in the
    metadata cache passed validation, and whenever the session holds
    metadata its last URL is a valid one: nothing that failed validation
    ever reached the engine through the page. *)
Theorem only_validated_urls_kept (reliable : bool) (a : app_state) :
  reachable isalnum_unicode format_percent os_path_join FFMPEG_DIR
    reliable a →
  (∀ url e, cache a !! url = Some e →
            is_valid_youtube_url isalnum_unicode url = true)
  ∧ (is_Some (video_info (session a)) →
     is_valid_youtube_url isalnum_unicode (last_url (session a)) = true).
Proof.
  induction 1 as [|i a _ [IH1 IH2] _ _ _].
  - split; [intros url e; simpl; by rewrite lookup_empty|by intros [? [=]]].
  - by apply step_validated.
Qed.

End script.

Lemma abandoned_dir_never_removed_witness :
  str "/tmp/ytdl_a"
  ∈ temp_dirs
      (script_run ascii_only DownloadExamples.percent DownloadExamples.join
         DownloadExamples.no_ffmpeg SessionExamples.new_link
         (script_run ascii_only DownloadExamples.percent DownloadExamples.join
            DownloadExamples.no_ffmpeg
            SessionExamples.second_click_removal_fails
            (script_run ascii_only DownloadExamples.percent
               DownloadExamples.join DownloadExamples.no_ffmpeg
               SessionExamples.first_click initial_state))).
Proof.
  apply (abandoned_dir_never_removed ascii_only DownloadExamples.percent
           DownloadExamples.join DownloadExamples.no_ffmpeg
           SessionExamples.new_link _ (str "/tmp/ytdl_a")).
  - vm_compute. reflexivity.
  - vm_compute. discriminate.
  - vm_compute. discriminate.
Defined.

Lemma run_resets_on_url_change_witness :
  tmp_dir (session
    (script_run ascii_only DownloadExamples.percent DownloadExamples.join
       DownloadExamples.no_ffmpeg SessionExamples.new_link
       (script_run ascii_only DownloadExamples.percent DownloadExamples.join
          DownloadExamples.no_ffmpeg SessionExamples.first_click
          initial_state))) = None.
Proof.
  apply (proj2 (run_resets_on_url_change ascii_only DownloadExamples.percent
                  DownloadExamples.join DownloadExamples.no_ffmpeg
                  SessionExamples.new_link
                  (script_run ascii_only DownloadExamples.percent
                     DownloadExamples.join DownloadExamples.no_ffmpeg
                     SessionExamples.first_click initial_state))).
  - vm_compute. discriminate.
  - reflexivity.
Defined.

Lemma session_stays_consistent_witness :
  session_consistent
    (script_run ascii_only DownloadExamples.percent DownloadExamples.join
       DownloadExamples.no_ffmpeg SessionExamples.second_click_removal_fails
       (script_run ascii_only DownloadExamples.percent DownloadExamples.join
          DownloadExamples.no_ffmpeg SessionExamples.first_click
          initial_state)).
Proof.
  apply (session_stays_consistent ascii_only DownloadExamples.percent
           DownloadExamples.join DownloadExamples.no_ffmpeg false).
  apply reach_run; [apply reach_run; [apply reach_init|..]|..];
    first [reflexivity|discriminate].
Defined.

Lemma invalid_url_stops_run_witness :
  cache
    (script_run ascii_only DownloadExamples.percent DownloadExamples.join
       DownloadExamples.no_ffmpeg
       (RunInput LinkExamples.other_site 0 Video 0 true true true
          (str "/tmp/ytdl_a") DownloadExamples.one_file)
       initial_state)
  = cache initial_state.
Proof.
  apply (invalid_url_stops_run ascii_only DownloadExamples.percent
           DownloadExamples.join DownloadExamples.no_ffmpeg
           (RunInput LinkExamples.other_site 0 Video 0 true true true
              (str "/tmp/ytdl_a") DownloadExamples.one_file)
           SessionExamples.first_click initial_state).
  right. vm_compute. reflexivity.
Defined.

Lemma only_validated_urls_kept_witness :
  is_valid_youtube_url ascii_only
    (last_url (session
       (script_run ascii_only DownloadExamples.percent DownloadExamples.join
          DownloadExamples.no_ffmpeg SessionExamples.first_click
          initial_state))) = true.
Proof.
  assert (reachable ascii_only DownloadExamples.percent DownloadExamples.join
            DownloadExamples.no_ffmpeg false
            (script_run ascii_only DownloadExamples.percent
               DownloadExamples.join DownloadExamples.no_ffmpeg
               SessionExamples.first_click initial_state)) as Hreach.
  { apply reach_run; [apply reach_init|..]; first [reflexivity|discriminate]. }
  apply (proj2 (only_validated_urls_kept ascii_only DownloadExamples.percent
                  DownloadExamples.join DownloadExamples.no_ffmpeg false
                  _ Hreach)).
  vm_compute. eexists. reflexivity.
Defined.

(** ** _find_ffmpeg *)

Section ffmpeg.

Context (os_path_join : pystr → pystr → pystr) (M : machine).

Lemma first_with_exe_None dirs :
  first_with_exe os_path_join M dirs = None
  ↔ ∀ d, d ∈ dirs →
         path_isfile M (os_path_join d (str "ffmpeg.exe")) = false.
Proof.
  induction dirs as [|d dirs IH]; cbn [first_with_exe].
  - split; [|done]. by intros _ d ?%elem_of_nil.
  - destruct (path_isfile M (os_path_join d (str "ffmpeg.exe"))) eqn:E.
    + split; [done|]. intros H. rewrite H in E; [done|left].
    + rewrite IH. split.
      * intros H x [ -> |?]%elem_of_cons; auto.
      * intros H x Hx. apply H. by right.
Qed.

Lemma first_with_exe_first before d after :
  path_isfile M (os_path_join d (str "ffmpeg.exe")) = true →
  (∀ x, x ∈ before →
        path_isfile M (os_path_join x (str "ffmpeg.exe")) = false) →
  first_with_exe os_path_join M (before ++ d :: after) = Some d.
Proof.
  intros Hd. induction before as [|x before IH]; intros Hb;
    cbn [first_with_exe app].
  - by rewrite Hd.
  - rewrite (Hb x) by left. apply IH. intros y Hy. apply Hb. by right.
Qed.

Lemma first_root_with_exe_None walk :
  first_root_with_exe walk = None
  ↔ ∀ root dirs files, (root, dirs, files) ∈ walk →
                       str "ffmpeg.exe" ∉ files.
Proof.
  induction walk as [|[[root dirs] files] walk IH];
    cbn [first_root_with_exe].
  - split; [|done]. by intros _ ??? ?%elem_of_nil.
  - destruct (bool_decide_reflect (str "ffmpeg.exe" ∈ files)) as [Hin|Hin].
    + split; [done|]. intros H. destruct (H root dirs files); [left|done].
    + rewrite IH. split.
      * intros H r ds fs [[= -> -> ->]|?]%elem_of_cons; eauto.
      * intros H r ds fs Hx. eapply H. by right.
Qed.

End ffmpeg.

(** X18: _find_ffmpeg prefers the PATH: when shutil.which finds ffmpeg,
    the result is the parent directory of what it found.  Otherwise the
    result is the first search directory that holds ffmpeg.exe.  The
    function returns None exactly when the PATH has no ffmpeg, no search
    directory holds ffmpeg.exe, and C:\ffmpeg is not a directory or no
    directory under it lists ffmpeg.exe. *)
Theorem find_ffmpeg_outcome
    (os_path_join : pystr → pystr → pystr) (M : machine) :
  (∀ p, which_ffmpeg M = Some p → str_truthy p = true →
        _find_ffmpeg os_path_join M = Some (parent_of M p))
  ∧ (∀ before d after,
       (∀ p, which_ffmpeg M = Some p → p = []) →
       _FFMPEG_SEARCH_DIRS M = before ++ d :: after →
       path_isfile M (os_path_join d (str "ffmpeg.exe")) = true →
       (∀ x, x ∈ before →
             path_isfile M (os_path_join x (str "ffmpeg.exe")) = false) →
       _find_ffmpeg os_path_join M = Some d)
  ∧ (_find_ffmpeg os_path_join M = None
     ↔ (∀ p, which_ffmpeg M = Some p → p = [])
       ∧ (∀ d, d ∈ _FFMPEG_SEARCH_DIRS M →
               path_isfile M (os_path_join d (str "ffmpeg.exe")) = false)
       ∧ (path_isdir M (str "C:\ffmpeg") = true →
          ∀ root dirs files,
            (root, dirs, files) ∈ os_walk M (str "C:\ffmpeg") →
            str "ffmpeg.exe" ∉ files)).
Proof.
  assert (search_install_dirs os_path_join M = None
          ↔ (∀ d, d ∈ _FFMPEG_SEARCH_DIRS M →
                  path_isfile M (os_path_join d (str "ffmpeg.exe")) = false)
            ∧ (path_isdir M (str "C:\ffmpeg") = true →
               ∀ root dirs files,
                 (root, dirs, files) ∈ os_walk M (str "C:\ffmpeg") →
                 str "ffmpeg.exe" ∉ files)) as Hsearch.
  { unfold search_install_dirs.
    rewrite <- first_with_exe_None, <- first_root_with_exe_None.
    destruct (first_with_exe os_path_join M (_FFMPEG_SEARCH_DIRS M)).
    - split; [done|]. by intros [? _].
    - destruct (path_isdir M (str "C:\ffmpeg")).
      + split; [by intros ->|]. intros [_ H]. by apply H.
      + split; [done|]. done. }
  assert ((∀ p, which_ffmpeg M = Some p → p = []) →
          _find_ffmpeg os_path_join M = search_install_dirs os_path_join M)
    as Hfall.
  { intros Hw. unfold _find_ffmpeg.
    destruct (which_ffmpeg M) as [p|]; [|done]. by rewrite (Hw p eq_refl). }
  split; [|split].
  - intros p Hw Hp. unfold _find_ffmpeg. by rewrite Hw, Hp.
  - intros before d after Hw Hdirs Hd Hb. rewrite (Hfall Hw).
    unfold search_install_dirs.
    by rewrite Hdirs, (first_with_exe_first os_path_join M before d after).
  - split.
    + intros Hnone.
      assert (∀ p, which_ffmpeg M = Some p → p = []) as Hw.
      { intros p Hp. unfold _find_ffmpeg in Hnone. rewrite Hp in Hnone.
        destruct p; [done|]. simpl in Hnone. discriminate. }
      split; [done|]. apply Hsearch. by rewrite <- (Hfall Hw).
    + intros (Hw & Hrest). rewrite (Hfall Hw). by apply Hsearch.
Qed.

Lemma find_ffmpeg_outcome_witness :
  _find_ffmpeg DownloadExamples.join FfmpegExamples.in_program_files
  = Some (str "C:\Program Files\ffmpeg\bin")
  ∧ _find_ffmpeg DownloadExamples.join FfmpegExamples.nowhere = None.
Proof.
  split.
  - apply (proj1 (proj2 (find_ffmpeg_outcome DownloadExamples.join
                           FfmpegExamples.in_program_files))
             [str "C:\ffmpeg\bin"] _
             [str "C:\Program Files (x86)\ffmpeg\bin";
              str "C:\Users\me\ffmpeg\bin";
              str "C:\Users\me\Downloads\ffmpeg\bin"]).
    + discriminate.
    + reflexivity.
    + vm_compute. reflexivity.
    + intros x [ -> |[]%elem_of_nil]%elem_of_cons. vm_compute. reflexivity.
  - apply (proj2 (proj2 (find_ffmpeg_outcome DownloadExamples.join
                           FfmpegExamples.nowhere))).
    split_and!.
    + discriminate.
    + reflexivity.
    + intros _ root dirs files Hin.
      apply elem_of_cons in Hin as [E|Hin]; [|by apply elem_of_nil in Hin].
      injection E as -> -> ->.
      rewrite elem_of_cons, elem_of_nil. intros [H|[]]. discriminate.
Defined.

(** ** What the engine is asked to do *)

Section requests.

Context (format_percent : Qc → pystr).
Context (os_path_join : pystr → pystr → pystr) (FFMPEG_DIR : option pystr).

Lemma build_opts_audio resolution tmp_dir :
  build_opts os_path_join FFMPEG_DIR (str "audio") resolution tmp_dir
  = DownloadOpts (str "bestaudio/best")
      (os_path_join tmp_dir (str "%(title)s.%(ext)s")) true true
      [progress_hook]
      (Some [Postprocessor (str "FFmpegExtractAudio") (str "mp3") (str "192")])
      None (ffmpeg_location FFMPEG_DIR).
Proof. unfold build_opts. by rewrite decide_True. Qed.


Lemma download_content_returned W url fmt resolution tmp_dir file others :
  ended (ydl_download W (build_opts os_path_join FFMPEG_DIR fmt resolution
                           tmp_dir) [url]) = None →
  iterdir W tmp_dir = inl (file :: others) →
  download_content format_percent os_path_join FFMPEG_DIR W url fmt
    resolution tmp_dir
  = (Some file,
     concat (_progress_hook format_percent
             <$> events (ydl_download W (build_opts os_path_join FFMPEG_DIR
                                           fmt resolution tmp_dir) [url]))).
Proof. intros Hrun Hdir. unfold download_content. by rewrite Hrun, Hdir. Qed.

Lemma download_content_failed W url fmt resolution tmp_dir exc :
  ended (ydl_download W (build_opts os_path_join FFMPEG_DIR fmt resolution
                           tmp_dir) [url]) = Some (DownloadError exc) →
  download_content format_percent os_path_join FFMPEG_DIR W url fmt
    resolution tmp_dir
  = (None,
     concat (_progress_hook format_percent
             <$> events (ydl_download W (build_opts os_path_join FFMPEG_DIR
                                           fmt resolution tmp_dir) [url]))
     ++ [StError (cross_mark ++ str " Download failed: " ++ exc)]).
Proof. intros Hrun. unfold download_content. by rewrite Hrun. Qed.





End requests.



(** C8: for every audio-kind download request, download_content runs the
    engine on the URL with the format "bestaudio/best" and the audio
    extraction step with codec mp3 and quality 192: what it returns and
    shows is what the engine does with exactly these options.  When the
    engine returns without error and the target directory then holds one
    file, download_content returns that file's path. *)
Theorem audio_request
    (format_percent : Qc → pystr) (os_path_join : pystr → pystr → pystr)
    (FFMPEG_DIR : option pystr) (W : world) (url : pystr)
    (resolution : option pystr) (tmp_dir file : pystr) :
  let audio :=
    DownloadOpts (str "bestaudio/best")
      (os_path_join tmp_dir (str "%(title)s.%(ext)s")) true true
      [progress_hook]
      (Some [Postprocessor (str "FFmpegExtractAudio") (str "mp3") (str "192")])
      None (ffmpeg_location FFMPEG_DIR) in
  let run := ydl_download W audio [url] in
  let relayed := concat (_progress_hook format_percent <$> events run) in
  let result :=
    download_content format_percent os_path_join FFMPEG_DIR W url
      (str "audio") resolution tmp_dir in
  (ended run = None → iterdir W tmp_dir = inl [file] →
   result = (Some file, relayed))
  ∧ (∀ exc, ended run = Some (DownloadError exc) →
            result = (None, relayed
                            ++ [StError (cross_mark
                                         ++ str " Download failed: " ++ exc)]))
  ∧ format (build_opts os_path_join FFMPEG_DIR (str "audio") resolution
              tmp_dir) = str "bestaudio/best"
  ∧ postprocessors (build_opts os_path_join FFMPEG_DIR (str "audio")
                      resolution tmp_dir)
    = Some [Postprocessor (str "FFmpegExtractAudio") (str "mp3") (str "192")].
Proof.
  cbv zeta. rewrite <- (build_opts_audio os_path_join FFMPEG_DIR resolution).
  split_and!.
  - intros Hrun Hdir. by eapply download_content_returned.
  - intros exc Hrun. by apply download_content_failed.
  - by rewrite build_opts_audio.
  - by rewrite build_opts_audio.
Qed.

Lemma audio_request_witness :
  download_content DownloadExamples.percent DownloadExamples.join
    DownloadExamples.no_ffmpeg DownloadExamples.one_file
    LinkExamples.watch (str "audio") None (str "/tmp/ytdl_a")
  = (Some (str "/tmp/ytdl_a/song.mp3"),
     concat (_progress_hook DownloadExamples.percent
             <$> events (ydl_download DownloadExamples.one_file
                   (DownloadOpts (str "bestaudio/best")
                      (DownloadExamples.join (str "/tmp/ytdl_a")
                         (str "%(title)s.%(ext)s")) true true
                      [progress_hook]
                      (Some [Postprocessor (str "FFmpegExtractAudio")
                               (str "mp3") (str "192")])
                      None (ffmpeg_location DownloadExamples.no_ffmpeg))
                   [LinkExamples.watch]))).
Proof.
  apply (proj1 (audio_request DownloadExamples.percent
           DownloadExamples.join DownloadExamples.no_ffmpeg
           DownloadExamples.one_file LinkExamples.watch None
           (str "/tmp/ytdl_a") (str "/tmp/ytdl_a/song.mp3")));
    reflexivity.
Defined.




